(** * NMR permeability data generator: a shallow embedding of
    [data_generator.py] and the properties of its four operations.

    The Python class [NMRDataGenerator] draws every random number from
    NumPy's legacy global stream ([np.random.seed], [np.random.uniform],
    [np.random.lognormal]).  The embedding therefore threads that global
    stream explicitly through every operation (a state-and-exception
    monad) and models the Mersenne Twister behind it on 32-bit words
    held in [Z].

    Floating-point values are taken as real numbers, without rounding.
    The generator only produces finite values; the statistics can meet
    an empty column or a zero divisor, and are computed on [float64],
    the reals with the two infinities and NaN.

    An array has any length that is not negative: the failures of NumPy
    for lengths past what it can index or allocate (a [ValueError], an
    [IndexError] or a [MemoryError], by length and machine) are not
    modelled.  Where a property is about when a method returns, it is
    therefore stated relative to the NumPy call that would fail. *)

From Stdlib Require Import ZArith Reals Lra Lia List String.
From stdpp Require Import base option list gmap strings pretty.

#[local] Set Warnings "-clear-no-such-hyp".

Local Open Scope Z_scope.

(** ** Exceptions and results *)

Inductive exception : Type :=
  | ValueError (msg : string)
  | KeyError (key : string).

Inductive result (A : Type) : Type :=
  | Ok (a : A)
  | Raise (e : exception).
Arguments Ok {A} a.
Arguments Raise {A} e.

Definition raises {A} (r : result A) : Prop :=
  match r with Ok _ => False | Raise _ => True end.

Definition succeeds {A} (r : result A) : Prop :=
  match r with Ok _ => True | Raise _ => False end.

#[global] Instance result_ret : MRet result := @Ok.
#[global] Instance result_bind : MBind result := fun A B f r =>
  match r with Ok a => f a | Raise e => Raise e end.

(** ** The legacy global random stream (MT19937)

    State of [numpy.random]'s global [RandomState]: the 624 key words of
    the Mersenne Twister, the read position, and the cached second value
    of the Gaussian pair generator. *)

Record rng_state : Type := mk_rng_state {
  key : list Z;
  pos : nat;
  has_gauss : bool;
  gauss : R
}.

Definition RK_STATE_LEN : nat := 624.

(** A [uint32_t] value: arithmetic wraps modulo 2^32. *)
Definition u32 (x : Z) : Z := Z.land x 4294967295.

Definition key_at (k : list Z) (i : nat) : Z := u32 (default 0 (k !! i)).

(** [mt19937_seed]: Knuth's linear congruential generator fills the key. *)
Fixpoint mt19937_seed_loop (n : nat) (p : Z) (seed : Z) : list Z :=
  match n with
  | O => []
  | S n' =>
      seed :: mt19937_seed_loop n' (p + 1)
                (u32 (1812433253 * Z.lxor seed (Z.shiftr seed 30) + p + 1))
  end.

Definition mt19937_seed (seed : Z) : rng_state :=
  {| key := mt19937_seed_loop RK_STATE_LEN 0 (u32 seed);
     pos := RK_STATE_LEN;
     has_gauss := false;
     gauss := 0%R |}.

(** One word of the twist: [y] joins the top bit of [key[i]] with the low
    31 bits of [key[j]]; the new word is [key[m] ^ (y >> 1) ^ (-(y & 1) &
    MATRIX_A)]. *)
Definition twist_word (k : list Z) (i j m : nat) : Z :=
  let y := Z.lor (Z.land (key_at k i) 2147483648)
                 (Z.land (key_at k j) 2147483647) in
  Z.lxor (Z.lxor (key_at k m) (Z.shiftr y 1))
         (if Z.testbit y 0 then 2567483615 else 0).

(** [mt19937_gen] updates the key in place, word by word: for [i < 227]
    the partner [key[i + 397]] is still the old word, afterwards
    [key[i - 227]] is already the new one, and the last word pairs with
    the new [key[0]]; the indices below are those, written modulo 624. *)
Fixpoint mt19937_gen_loop (n : nat) (i : nat) (k : list Z) : list Z :=
  match n with
  | O => k
  | S n' =>
      let j := ((i + 1) mod 624)%nat in
      let m := ((i + 397) mod 624)%nat in
      mt19937_gen_loop n' (S i) (<[i := twist_word k i j m]> k)
  end.

Definition mt19937_gen (st : rng_state) : rng_state :=
  {| key := mt19937_gen_loop RK_STATE_LEN 0 (key st);
     pos := 0;
     has_gauss := has_gauss st;
     gauss := gauss st |}.

Definition temper (y : Z) : Z :=
  let y := Z.lxor y (Z.shiftr y 11) in
  let y := Z.lxor y (Z.land (u32 (Z.shiftl y 7)) 2636928640) in
  let y := Z.lxor y (Z.land (u32 (Z.shiftl y 15)) 4022730752) in
  u32 (Z.lxor y (Z.shiftr y 18)).

Definition mt19937_next (st : rng_state) : Z * rng_state :=
  let st := if Nat.eqb (pos st) RK_STATE_LEN then mt19937_gen st else st in
  (temper (key_at (key st) (pos st)),
   {| key := key st; pos := S (pos st);
      has_gauss := has_gauss st; gauss := gauss st |}).

(** The 53 random bits of a double: [(a >> 5) * 2^26 + (b >> 6)]. *)
Definition mt19937_next_double_bits (st : rng_state) : Z * rng_state :=
  let '(a, st1) := mt19937_next st in
  let '(b, st2) := mt19937_next st1 in
  (Z.shiftr a 5 * 67108864 + Z.shiftr b 6, st2).

Definition mt19937_next_double (st : rng_state) : R * rng_state :=
  let '(bits, st') := mt19937_next_double_bits st in
  ((IZR bits / 9007199254740992)%R, st').

(** [random_uniform(state, lower, range)]. *)
Definition random_uniform (lower range : R) (st : rng_state) : R * rng_state :=
  let '(d, st') := mt19937_next_double st in
  ((lower + range * d)%R, st').

(** ** The monad of the module: the global stream and Python exceptions *)

Definition M (A : Type) : Type := rng_state -> result (A * rng_state).

#[global] Instance M_ret : MRet M := fun A a st => Ok (a, st).
#[global] Instance M_bind : MBind M := fun A B f m st =>
  match m st with Ok (a, st') => f a st' | Raise e => Raise e end.

(** A computation that does not touch the stream. *)
Definition lift {A} (r : result A) : M A := fun st =>
  match r with Ok a => Ok (a, st) | Raise e => Raise e end.

(** The value a computation returns, the final stream forgotten. *)
Definition eval {A} (m : M A) (st : rng_state) : result A :=
  match m st with Ok (a, _) => Ok a | Raise e => Raise e end.

(** [n] successive draws, in index order, as NumPy fills an array. *)
Fixpoint draws {A} (draw : rng_state -> A * rng_state) (n : nat)
    (st : rng_state) : list A * rng_state :=
  match n with
  | O => ([], st)
  | S n' =>
      let '(x, st1) := draw st in
      let '(xs, st2) := draws draw n' st1 in
      (x :: xs, st2)
  end.

(** ** The NumPy and pandas operations the module calls *)

Definition np_random_seed (seed : Z) : M unit := fun _ =>
  if (seed <? 0) || (4294967295 <? seed)
  then Raise (ValueError "Seed must be between 0 and 2**32 - 1")
  else Ok (tt, mt19937_seed seed).

Definition np_random_uniform (low high : R) (size : Z) : M (list R) := fun st =>
  if size <? 0 then Raise (ValueError "negative dimensions are not allowed")
  else Ok (draws (random_uniform low (high - low)) (Z.to_nat size) st).

(** Arrays are lists of reals; arithmetic is element by element.  Every
    pair of arrays the module combines has the same length. *)
Declare Scope array_scope.
Delimit Scope array_scope with array.

Definition arr_mul (a b : list R) : list R := zip_with Rmult a b.
Definition arr_div (a b : list R) : list R := zip_with Rdiv a b.
Definition arr_sub (a b : list R) : list R := zip_with Rminus a b.
Definition arr_add (a b : list R) : list R := zip_with Rplus a b.
Definition scal_mul (c : R) (a : list R) : list R := Rmult c <$> a.
Definition mul_scal (a : list R) (c : R) : list R := (fun x => x * c)%R <$> a.
Definition arr_pow (a : list R) (k : nat) : list R := (fun x => pow x k) <$> a.
Definition arr_rpow (a : list R) (y : R) : list R := (fun x => Rpower x y) <$> a.

Infix "[*]" := arr_mul (at level 40, left associativity) : array_scope.
Infix "[/]" := arr_div (at level 40, left associativity) : array_scope.
Infix "[-]" := arr_sub (at level 50, left associativity) : array_scope.
Infix "[+]" := arr_add (at level 50, left associativity) : array_scope.
Infix "[.*]" := scal_mul (at level 40, left associativity) : array_scope.
Infix "[*.]" := mul_scal (at level 40, left associativity) : array_scope.
Infix "[^]" := arr_pow (at level 30, right associativity) : array_scope.
Infix "[^^]" := arr_rpow (at level 30, right associativity) : array_scope.

Definition clip1 (lo hi x : R) : R := Rmin (Rmax x lo) hi.
Definition np_clip (a : list R) (lo hi : R) : list R := clip1 lo hi <$> a.

Definition np_log (a : list R) : list R := ln <$> a.
Definition np_exp (a : list R) : list R := exp <$> a.

Definition np_max (a : list R) : result R :=
  match a with
  | [] => Raise (ValueError
            "zero-size array to reduction operation maximum which has no identity")
  | x :: xs => Ok (foldl Rmax x xs)
  end.

(** [np.linspace(start, stop, num)] with the default [endpoint=True]:
    [arange(num) * step + start] with [step = (stop - start) / (num - 1)],
    and the last element set to [stop] when [num > 1]. *)
Definition np_linspace (start stop : R) (num : Z) : result (list R) :=
  if num <? 0
  then Raise (ValueError ("Number of samples, " +:+ pretty num
                          +:+ ", must be non-negative."))
  else
    let div := num - 1 in
    let delta := (stop - start)%R in
    let y := IZR <$> seqZ 0 num in
    let y := if 0 <? div
             then (fun v => v * (delta / IZR div))%R <$> y
             else (fun v => v * delta)%R <$> y in
    let y := (fun v => v + start)%R <$> y in
    Ok (if 1 <? num then <[Z.to_nat (num - 1) := stop]> y else y).

(** [np.logspace(start, stop, num)] is [10 ** linspace(start, stop, num)]. *)
Definition np_logspace (start stop : R) (num : Z) : result (list R) :=
  y ← np_linspace start stop num;
  mret (Rpower 10 <$> (y : list R)).

(** The table the generator returns: ten columns, in this order. *)
Record DataFrame : Type := mk_DataFrame {
  Depth_m : list R;
  Porosity : list R;
  T2_GM_ms : list R;
  BFV : list R;
  FFI : list R;
  Clay_Volume : list R;
  Core_Permeability_mD : list R;
  Coates_Permeability_mD : list R;
  Timur_Coates_Permeability_mD : list R;
  SDR_Permeability_mD : list R
}.

Definition columns (data : DataFrame) : list (string * list R) :=
  [ ("Depth_m", Depth_m data);
    ("Porosity", Porosity data);
    ("T2_GM_ms", T2_GM_ms data);
    ("BFV", BFV data);
    ("FFI", FFI data);
    ("Clay_Volume", Clay_Volume data);
    ("Core_Permeability_mD", Core_Permeability_mD data);
    ("Coates_Permeability_mD", Coates_Permeability_mD data);
    ("Timur_Coates_Permeability_mD", Timur_Coates_Permeability_mD data);
    ("SDR_Permeability_mD", SDR_Permeability_mD data) ]%string.

(** [pd.DataFrame({...})] refuses columns of different lengths. *)
Definition pd_DataFrame (data : DataFrame) : result DataFrame :=
  if forallb (fun c => Nat.eqb (length (snd c)) (length (Depth_m data)))
             (columns data)
  then Ok data
  else Raise (ValueError "All arrays must be of the same length").

(** [data[name]]: the column of that name, or a [KeyError]. *)
Fixpoint assoc (name : string) (cols : list (string * list R)) : result (list R) :=
  match cols with
  | [] => Raise (KeyError name)
  | (k, c) :: rest => if String.eqb k name then Ok c else assoc name rest
  end.

Definition getitem (data : DataFrame) (name : string) : result (list R) :=
  assoc name (columns data).

(** Number of rows of a table. *)
Definition n_rows (data : DataFrame) : nat := length (Depth_m data).

(** Python's [for x in xs: body], threading the loop's variables. *)
Fixpoint for_each {T : Type -> Type} {A S : Type} `{!MRet T, !MBind T}
    (xs : list A) (body : A -> S -> T S) (s : S) : T S :=
  match xs with
  | [] => mret s
  | x :: rest => s' ← body x s; for_each rest body s'
  end.

(** [range(1, n + 1)]. *)
Definition range_from_1 (n : Z) : list Z := seqZ 1 n.

(** ** Floating-point results of the statistics

    The columns of a table hold finite values, taken as reals.  The
    statistics take logarithms of them and divide by them, and where a
    value is zero or a column is empty IEEE arithmetic gives an infinity
    or NaN: NumPy and pandas warn and go on, they do not raise.
    [float64] adds these three values to the reals.  Arithmetic on
    finite values stays exact, and the two zeros are not told apart. *)
Inductive float64 : Type := Fin (x : R) | PInf | NInf | NaN.

Definition is_nan (a : float64) : bool :=
  match a with NaN => true | _ => false end.

Definition f64_opp (a : float64) : float64 :=
  match a with
  | Fin x => Fin (- x) | PInf => NInf | NInf => PInf | NaN => NaN
  end.

Definition f64_add (a b : float64) : float64 :=
  match a, b with
  | NaN, _ | _, NaN => NaN
  | Fin x, Fin y => Fin (x + y)
  | PInf, NInf | NInf, PInf => NaN
  | PInf, _ | _, PInf => PInf
  | NInf, _ | _, NInf => NInf
  end.

Definition f64_sub (a b : float64) : float64 := f64_add a (f64_opp b).

(** The infinity with the sign of [x]; NaN for [x = 0]. *)
Definition f64_signed_inf (x : R) : float64 :=
  if Rlt_dec 0 x then PInf else if Rlt_dec x 0 then NInf else NaN.

Definition f64_mul (a b : float64) : float64 :=
  match a, b with
  | NaN, _ | _, NaN => NaN
  | Fin x, Fin y => Fin (x * y)
  | Fin x, PInf | PInf, Fin x => f64_signed_inf x
  | Fin x, NInf | NInf, Fin x => f64_signed_inf (- x)
  | PInf, PInf | NInf, NInf => PInf
  | PInf, NInf | NInf, PInf => NInf
  end.

Definition f64_div (a b : float64) : float64 :=
  match a, b with
  | NaN, _ | _, NaN => NaN
  | Fin x, Fin y => if Req_dec_T y 0 then f64_signed_inf x else Fin (x / y)
  | Fin _, _ => Fin 0
  | PInf, Fin y => if Rlt_dec y 0 then NInf else PInf
  | NInf, Fin y => if Rlt_dec y 0 then PInf else NInf
  | _, _ => NaN
  end.

Definition f64_sqrt (a : float64) : float64 :=
  match a with
  | Fin x => if Rlt_dec x 0 then NaN else Fin (sqrt x)
  | PInf => PInf
  | _ => NaN
  end.

Definition f64_abs (a : float64) : float64 :=
  match a with Fin x => Fin (Rabs x) | NaN => NaN | _ => PInf end.

Definition f64_log10 (a : float64) : float64 :=
  match a with
  | Fin x => if Rlt_dec 0 x then Fin (ln x / ln 10)
             else if Rlt_dec x 0 then NaN else NInf
  | PInf => PInf
  | _ => NaN
  end.

(** [np.clip] lets NaN through. *)
Definition f64_clip (lo hi : R) (a : float64) : float64 :=
  match a with
  | Fin x => Fin (clip1 lo hi x)
  | PInf => Fin hi
  | NInf => Fin lo
  | NaN => NaN
  end.

(** Arrays and Series of such values, element by element. *)
Definition np_log10 (a : list float64) : list float64 := f64_log10 <$> a.
Definition np_abs (a : list float64) : list float64 := f64_abs <$> a.
Definition np_sqrt (a : float64) : float64 := f64_sqrt a.
Definition ser_sub (a b : list float64) : list float64 := zip_with f64_sub a b.
Definition ser_div (a b : list float64) : list float64 := zip_with f64_div a b.
Definition ser_mul (a b : list float64) : list float64 := zip_with f64_mul a b.
(** [a ** 2]. *)
Definition ser_square (a : list float64) : list float64 :=
  (fun x => f64_mul x x) <$> a.

Definition f64_sum (a : list float64) : float64 := foldr f64_add (Fin 0) a.

(** [ndarray.mean()]: the sum divided by the length, NaN for no element. *)
Definition ndarray_mean (a : list float64) : float64 :=
  f64_div (f64_sum a) (Fin (INR (length a))).

(** [np.mean(series)] hands over to [Series.mean()], which leaves the
    NaN entries out ([skipna=True]): the sum of the others divided by
    their number, NaN when none is left. *)
Definition np_mean (series : list float64) : float64 :=
  let kept := List.filter (fun x => negb (is_nan x)) series in
  match kept with
  | [] => NaN
  | _ :: _ => f64_div (f64_sum kept) (Fin (INR (length kept)))
  end.

(** [np.cov(x, y)[i, j]] for the rows [x] and [y]: the products of the
    deviations from the row means, summed and multiplied by
    [1 / (len - 1)]; a divisor that is not positive is replaced by 0
    with a warning. *)
Definition np_cov (x y : list float64) : float64 :=
  let fact := if (length x <=? 1)%nat then 0%R else (INR (length x) - 1)%R in
  let dx := (fun v => f64_sub v (ndarray_mean x)) <$> x in
  let dy := (fun v => f64_sub v (ndarray_mean y)) <$> y in
  f64_mul (f64_sum (ser_mul dx dy)) (f64_div (Fin 1) (Fin fact)).

(** [np.corrcoef(x, y)[0, 1]]: the covariance divided by the standard
    deviation of [x], then by that of [y], then clipped to [-1, 1]. *)
Definition np_corrcoef_0_1 (x y : list float64) : float64 :=
  f64_clip (-1) 1
    (f64_div (f64_div (np_cov x y) (f64_sqrt (np_cov x x)))
             (f64_sqrt (np_cov y y))).

(** [calculate_statistics] works on the table it is handed.  Its monad
    threads that table: [data[name]] reads one column of it, as a Series
    of floating-point values, and leaves the table as it is. *)
Definition OnTable (A : Type) : Type := DataFrame -> result (A * DataFrame).

#[global] Instance OnTable_ret : MRet OnTable := fun A a data => Ok (a, data).
#[global] Instance OnTable_bind : MBind OnTable := fun A B f m data =>
  match m data with Ok (a, data') => f a data' | Raise e => Raise e end.

Definition column (name : string) : OnTable (list float64) := fun data =>
  match getitem data name with
  | Ok c => Ok (Fin <$> c, data)
  | Raise e => Raise e
  end.

(** What a call returns, the table left aside. *)
Definition returned {A} (r : result (A * DataFrame)) : result A :=
  match r with Ok (a, _) => Ok a | Raise e => Raise e end.

(** ** The class [NMRDataGenerator] *)

(** The only attribute [__init__] stores is [n_samples]; the seed goes to
    the global stream and is not kept. *)
Record NMRDataGenerator : Type := mk_NMRDataGenerator { n_samples : Z }.

Record ModelStatistics : Type := mk_ModelStatistics {
  correlation : float64;
  rmse_log : float64;
  mape : float64
}.

Section Generator.

Local Open Scope R_scope.
Local Open Scope array_scope.

(** [legacy_gauss]: one standard normal deviate taken from the stream.
    NumPy computes it from pairs of doubles by the polar method, in a
    rejection loop with no iteration bound; the generator is verified
    for any such function of the stream. *)
Variable legacy_gauss : rng_state -> R * rng_state.

Definition legacy_lognormal (mean sigma : R) (st : rng_state)
    : R * rng_state :=
  let '(g, st') := legacy_gauss st in
  (exp (mean + sigma * g), st').

Definition np_random_lognormal (mean sigma : R) (size : Z) : M (list R) :=
  fun st =>
    if (size <? 0)%Z
    then Raise (ValueError "negative dimensions are not allowed")
    else Ok (draws (legacy_lognormal mean sigma) (Z.to_nat size) st).

Definition __init__ (n_samples random_seed : Z) : M NMRDataGenerator :=
  np_random_seed random_seed;;
  mret {| n_samples := n_samples |}.

Definition generate_nmr_permeability_data (self : NMRDataGenerator)
    : M DataFrame :=
  porosity ← np_random_uniform 0.05 0.35 (n_samples self);
  t2_gm ← np_random_lognormal (ln 100) 0.8 (n_samples self);
  let t2_gm := np_clip t2_gm 10 1000 in
  fraction ← np_random_uniform 0.2 0.6 (n_samples self);
  let bfv := porosity [*] fraction in
  let ffi := porosity [-] bfv in
  clay_volume ← np_random_uniform 0 0.3 (n_samples self);
  let base_perm := (porosity [^] 4) [*] (ffi [/] bfv) [^] 2 [*.] 10000 in
  noise ← np_random_lognormal 0 0.3 (n_samples self);
  let core_permeability := base_perm [*] noise in
  let core_permeability := np_clip core_permeability 0.01 10000 in
  let coates_perm := (porosity [^] 4) [*] (ffi [/] bfv) [^] 2 [*.] 10000 in
  coates_noise ← np_random_lognormal 0 0.15 (n_samples self);
  let coates_perm := coates_perm [*] coates_noise in
  let coates_perm := np_clip coates_perm 0.01 10000 in
  let timur_coates_perm :=
    0.136 [.*] (porosity [^^] 4.4) [/] (bfv [^] 2) [*.] 10000 in
  timur_noise ← np_random_lognormal 0 0.2 (n_samples self);
  let timur_coates_perm := timur_coates_perm [*] timur_noise in
  let timur_coates_perm := np_clip timur_coates_perm 0.01 10000 in
  let sdr_perm := 4 [.*] (porosity [^] 4) [*] (t2_gm [^] 2) in
  sdr_noise ← np_random_lognormal 0 0.18 (n_samples self);
  let sdr_perm := sdr_perm [*] sdr_noise in
  let sdr_perm := np_clip sdr_perm 0.01 10000 in
  depth ← lift (np_linspace 2000 2500 (n_samples self));
  lift (pd_DataFrame
    {| Depth_m := depth;
       Porosity := porosity;
       T2_GM_ms := t2_gm;
       BFV := bfv;
       FFI := ffi;
       Clay_Volume := clay_volume;
       Core_Permeability_mD := core_permeability;
       Coates_Permeability_mD := coates_perm;
       Timur_Coates_Permeability_mD := timur_coates_perm;
       SDR_Permeability_mD := sdr_perm |}).

(** [generate_t2_distribution] reads neither [self] nor the stream. *)
Definition generate_t2_distribution (self : NMRDataGenerator) (n_bins : Z)
    : result (list R * list R) :=
  t2_times ← np_logspace (-1) 4 n_bins;
  let clay_peak :=
    np_exp ((fun l => - ((l - ln 3) ^ 2) / (2 * 0.5 ^ 2))
              <$> np_log t2_times) in
  let free_fluid_peak :=
    np_exp ((fun l => - ((l - ln 200) ^ 2) / (2 * 0.8 ^ 2))
              <$> np_log t2_times) in
  let amplitudes := 0.3 [.*] clay_peak [+] 0.7 [.*] free_fluid_peak in
  peak ← np_max amplitudes;
  let amplitudes := (fun a => a / peak) <$> amplitudes in
  mret (t2_times, amplitudes).

Definition calculate_statistics (self : NMRDataGenerator)
    : OnTable (gmap string ModelStatistics) :=
  let models := ["Coates"; "Timur_Coates"; "SDR"]%string in
  for_each models (fun model (stats : gmap string ModelStatistics) =>
    let pred_col := (model +:+ "_Permeability_mD")%string in
    core ← column "Core_Permeability_mD";
    pred ← column pred_col;
    let correlation := np_corrcoef_0_1 (np_log10 core) (np_log10 pred) in
    core ← column "Core_Permeability_mD";
    pred ← column pred_col;
    let rmse :=
      np_sqrt (np_mean (ser_square (ser_sub (np_log10 core) (np_log10 pred)))) in
    core ← column "Core_Permeability_mD";
    pred ← column pred_col;
    divisor ← column "Core_Permeability_mD";
    let mape :=
      f64_mul (np_mean (np_abs (ser_div (ser_sub core pred) divisor)))
              (Fin 100) in
    mret (<[model := {| correlation := correlation;
                        rmse_log := rmse;
                        mape := mape |}]> stats)) ∅.

Definition generate_well_data (self : NMRDataGenerator) (n_wells : Z)
    : M (gmap string DataFrame) :=
  for_each (range_from_1 n_wells) (fun i (wells : gmap string DataFrame) =>
    np_random_seed (42 + i);;
    well_data ← generate_nmr_permeability_data self;
    mret (<[("Well_" +:+ pretty i)%string := well_data]> wells)) ∅.

End Generator.

(** ** The polar method behind [legacy_gauss]

    [legacy_gauss] returns the cached deviate if there is one; otherwise
    it draws pairs [(x1, x2)] of doubles in (-1, 1) until
    [0 < x1^2 + x2^2 < 1], keeps [f * x1] and returns [f * x2], with
    [f = sqrt(-2 log(r2) / r2)].  The pairs are compared on their 53-bit
    numerators; the C loop has no bound, this one gives up after
    [polar_fuel] pairs and then returns 0 with the stream untouched. *)

Fixpoint polar_pair (fuel : nat) (st : rng_state)
    : option (Z * Z * rng_state) :=
  match fuel with
  | O => None
  | S fuel' =>
      let '(k1, st1) := mt19937_next_double_bits st in
      let '(k2, st2) := mt19937_next_double_bits st1 in
      let n1 := 2 * k1 - 9007199254740992 in
      let n2 := 2 * k2 - 9007199254740992 in
      let r2 := n1 * n1 + n2 * n2 in
      if (9007199254740992 * 9007199254740992 <=? r2) || (r2 =? 0)
      then polar_pair fuel' st2
      else Some (n1, n2, st2)
  end.

Definition polar_fuel : nat := 64.

Definition polar_gauss (st : rng_state) : R * rng_state :=
  if has_gauss st
  then (gauss st,
        {| key := key st; pos := pos st; has_gauss := false; gauss := 0%R |})
  else
    match polar_pair polar_fuel st with
    | Some (n1, n2, st') =>
        let x1 := (IZR n1 / 9007199254740992)%R in
        let x2 := (IZR n2 / 9007199254740992)%R in
        let r2 := (x1 * x1 + x2 * x2)%R in
        let f := sqrt (-2 * ln r2 / r2)%R in
        ((f * x2)%R,
         {| key := key st'; pos := pos st';
            has_gauss := true; gauss := (f * x1)%R |})
    | None => (0%R, st)
    end.

(** ** Samples: the rows of a table *)

Record Sample : Type := mk_Sample {
  depth_m : R;
  porosity : R;
  t2_geometric_mean_ms : R;
  bound_fluid_volume : R;
  free_fluid_index : R;
  clay_volume : R;
  core_permeability_md : R;
  coates_permeability_md : R;
  timur_coates_permeability_md : R;
  sdr_permeability_md : R
}.

(** Row [i] of a table ([data.iloc[i]]), when every column has it. *)
Definition row (data : DataFrame) (i : nat) : option Sample :=
  d ← Depth_m data !! i;
  p ← Porosity data !! i;
  t ← T2_GM_ms data !! i;
  b ← BFV data !! i;
  f ← FFI data !! i;
  c ← Clay_Volume data !! i;
  k ← Core_Permeability_mD data !! i;
  kc ← Coates_Permeability_mD data !! i;
  kt ← Timur_Coates_Permeability_mD data !! i;
  ks ← SDR_Permeability_mD data !! i;
  Some (mk_Sample d p t b f c k kc kt ks).

(** A well-formed table: every column has [n] entries. *)
Definition has_rows (n : nat) (data : DataFrame) : Prop :=
  Forall (fun c => length (snd c) = n) (columns data).

Definition strictly_increasing (l : list R) : Prop :=
  forall i j x y, l !! i = Some x -> l !! j = Some y -> (i < j)%nat -> (x < y)%R.

Definition evenly_spaced (step : R) (l : list R) : Prop :=
  forall i x y, l !! i = Some x -> l !! S i = Some y -> (y - x = step)%R.

(** A computation returns, and its value satisfies [P]. *)
Definition returns {A} (r : result (A * rng_state)) (P : A -> Prop) : Prop :=
  match r with Ok (a, _) => P a | Raise _ => False end.

(** The programs the properties are about: construct a generator and
    call one method on it. *)
Definition generate_dataset (legacy_gauss : rng_state -> R * rng_state)
    (sample_count random_seed : Z) : M DataFrame :=
  g ← __init__ sample_count random_seed;
  generate_nmr_permeability_data legacy_gauss g.

Definition generate_multi_well_dataset
    (legacy_gauss : rng_state -> R * rng_state)
    (sample_count random_seed well_count : Z) : M (gmap string DataFrame) :=
  g ← __init__ sample_count random_seed;
  generate_well_data legacy_gauss g well_count.



(** ** One generation run, draw by draw *)

Section Run.

Local Open Scope R_scope.
Local Open Scope array_scope.

Variable legacy_gauss : rng_state -> R * rng_state.

(** The eight arrays of draws of one run, in the order of the source,
    each from the stream the previous one left. *)
Record run_draws : Type := mk_run_draws {
  u_porosity : list R;
  ln_t2 : list R;
  u_fraction : list R;
  u_clay : list R;
  ln_core : list R;
  ln_coates : list R;
  ln_timur : list R;
  ln_sdr : list R;
  stream_after : rng_state
}.

Definition draws_of_run (n : nat) (st : rng_state) : run_draws :=
  let r1 := draws (random_uniform 0.05 (0.35 - 0.05)) n st in
  let r2 := draws (legacy_lognormal legacy_gauss (ln 100) 0.8) n (snd r1) in
  let r3 := draws (random_uniform 0.2 (0.6 - 0.2)) n (snd r2) in
  let r4 := draws (random_uniform 0 (0.3 - 0)) n (snd r3) in
  let r5 := draws (legacy_lognormal legacy_gauss 0 0.3) n (snd r4) in
  let r6 := draws (legacy_lognormal legacy_gauss 0 0.15) n (snd r5) in
  let r7 := draws (legacy_lognormal legacy_gauss 0 0.2) n (snd r6) in
  let r8 := draws (legacy_lognormal legacy_gauss 0 0.18) n (snd r7) in
  mk_run_draws (fst r1) (fst r2) (fst r3) (fst r4)
               (fst r5) (fst r6) (fst r7) (fst r8) (snd r8).

(** The expression both the ground truth and the Coates model start
    from: [porosity^4 * (FFI / BFV)^2 * 10000]. *)
Definition coates_form (por ffi bfv : list R) : list R :=
  (por [^] 4) [*] (ffi [/] bfv) [^] 2 [*.] 10000.

Definition table_of_run (depth : list R) (d : run_draws) : DataFrame :=
  let por := u_porosity d in
  let bfv := por [*] u_fraction d in
  let ffi := por [-] bfv in
  let t2 := np_clip (ln_t2 d) 10 1000 in
  {| Depth_m := depth;
     Porosity := por;
     T2_GM_ms := t2;
     BFV := bfv;
     FFI := ffi;
     Clay_Volume := u_clay d;
     Core_Permeability_mD :=
       np_clip (coates_form por ffi bfv [*] ln_core d) 0.01 10000;
     Coates_Permeability_mD :=
       np_clip (coates_form por ffi bfv [*] ln_coates d) 0.01 10000;
     Timur_Coates_Permeability_mD :=
       np_clip (0.136 [.*] (por [^^] 4.4) [/] (bfv [^] 2) [*.] 10000
                [*] ln_timur d) 0.01 10000;
     SDR_Permeability_mD :=
       np_clip (4 [.*] (por [^] 4) [*] (t2 [^] 2) [*] ln_sdr d) 0.01 10000 |}.

(** The table a generation yields when the stream was just seeded. *)
Definition seeded_table (sample_count seed : Z) : DataFrame :=
  table_of_run
    (match np_linspace 2000 2500 sample_count with
     | Ok depth => depth
     | Raise _ => []
     end)
    (draws_of_run (Z.to_nat sample_count) (mt19937_seed seed)).

End Run.

(** * The thesis document builder ([research_generator.py])

    [ResearchThesisGenerator] fills a python-docx [Document].  Of the
    document the model keeps what the class touches: the body as the
    list of its paragraphs, each with its style name, alignment, indents
    and runs, and the four settings made on the [Normal] style.
    [add_paragraph], [add_run], [add_heading] and [add_page_break] return
    the object they created; here that is its index in the body (and in
    the paragraph's runs), and the assignments to it update the list at
    that index.  Setting a non-empty text raises [ValueError] when the
    text is not XML-compatible, as lxml does. *)

Module Thesis.

Inductive WD_ALIGN_PARAGRAPH : Type := LEFT | CENTER | JUSTIFY.
Inductive WD_LINE_SPACING : Type := ONE_POINT_FIVE.

(** Lengths are in English Metric Units, as python-docx stores them. *)
Definition Pt (points : Z) : Z := points * 12700.
(** [Inches(num / den)]: [int(x * 914400)], truncated towards zero. *)
Definition Inches (num den : Z) : Z := Z.quot (num * 914400) den.

Record Run : Type := mk_Run {
  run_text : string;
  run_bold : option bool;
  run_italic : option bool;
  run_size : option Z;
  run_color : option (Z * Z * Z);
  run_page_break : bool
}.

Record Paragraph : Type := mk_Paragraph {
  par_style : string;
  par_alignment : option WD_ALIGN_PARAGRAPH;
  par_left_indent : option Z;
  par_first_line_indent : option Z;
  par_runs : list Run
}.

Record NormalStyle : Type := mk_NormalStyle {
  font_name : option string;
  font_size : option Z;
  line_spacing_rule : option WD_LINE_SPACING;
  space_after : option Z
}.

Record Document : Type := mk_Document {
  normal_style : NormalStyle;
  body : list Paragraph
}.

Record ResearchThesisGenerator : Type := mk_ResearchThesisGenerator {
  title : string;
  doc : Document
}.

(** The characters lxml accepts in a text: tab, newline, carriage
    return and everything from the space on, except the UTF-8 encodings
    of U+FFFE, U+FFFF and of the surrogates. *)
Definition byte_at (s : string) (i : nat) : nat :=
  match String.get i s with Some c => Ascii.nat_of_ascii c | None => 0%nat end.

Fixpoint xml_compatible (s : string) : bool :=
  match s with
  | EmptyString => true
  | String c rest =>
      let n := Ascii.nat_of_ascii c in
      (if (n <? 128)%nat
       then (32 <=? n)%nat || (n =? 9)%nat || (n =? 10)%nat || (n =? 13)%nat
       else negb (((n =? 239) && (byte_at rest 0 =? 191)
                   && (190 <=? byte_at rest 1))%nat
                  || ((n =? 237) && (160 <=? byte_at rest 0))%nat))
      && xml_compatible rest
  end.

(** Methods run on the generator object and may raise. *)
Definition W (A : Type) : Type :=
  ResearchThesisGenerator -> result (A * ResearchThesisGenerator).

#[global] Instance W_ret : MRet W := fun A a self => Ok (a, self).
#[global] Instance W_bind : MBind W := fun A B f m self =>
  match m self with Ok (a, self') => f a self' | Raise e => Raise e end.

Definition with_body (self : ResearchThesisGenerator)
    (b : list Paragraph) : ResearchThesisGenerator :=
  mk_ResearchThesisGenerator (title self)
    (mk_Document (normal_style (doc self)) b).

Definition new_paragraph (style : string) : Paragraph :=
  mk_Paragraph style None None None [].

Definition new_run : Run := mk_Run "" None None None None false.

(** Assignments to a paragraph or a run the code holds a reference to. *)
Definition update_paragraph (p : nat) (f : Paragraph -> Paragraph) : W unit :=
  fun self => Ok (tt, with_body self (alter f p (body (doc self)))).

Definition with_runs (par : Paragraph) (rs : list Run) : Paragraph :=
  mk_Paragraph (par_style par) (par_alignment par) (par_left_indent par)
               (par_first_line_indent par) rs.

Definition update_run (r : nat * nat) (f : Run -> Run) : W unit :=
  update_paragraph (fst r)
    (fun par => with_runs par (alter f (snd r) (par_runs par))).

Definition set_alignment (p : nat) (a : WD_ALIGN_PARAGRAPH) : W unit :=
  update_paragraph p (fun par =>
    mk_Paragraph (par_style par) (Some a) (par_left_indent par)
                 (par_first_line_indent par) (par_runs par)).

Definition set_left_indent (p : nat) (x : Z) : W unit :=
  update_paragraph p (fun par =>
    mk_Paragraph (par_style par) (par_alignment par) (Some x)
                 (par_first_line_indent par) (par_runs par)).

Definition set_first_line_indent (p : nat) (x : Z) : W unit :=
  update_paragraph p (fun par =>
    mk_Paragraph (par_style par) (par_alignment par) (par_left_indent par)
                 (Some x) (par_runs par)).

(** The error lxml raises for a text it does not accept. *)
Definition xml_error : exception :=
  ValueError ("All strings must be XML compatible: Unicode or ASCII, "
              +:+ "no NULL bytes or control characters").

(** The string ["\n"]. *)
Definition LF : string := String (Ascii.ascii_of_nat 10) EmptyString.

(** What [run.text] reads back after [run.text = text].  The setter
    writes the text character by character: a tab becomes a tab
    element, a newline and a carriage return each become a line break,
    and the characters between them go to text elements, which lxml
    checks.  The getter gives a tab for a tab element and a newline for
    a line break, so a carriage return comes back as a newline. *)
Fixpoint as_read_back (text : string) : string :=
  match text with
  | EmptyString => EmptyString
  | String c rest =>
      String (if Ascii.eqb c (Ascii.ascii_of_nat 13)
              then Ascii.ascii_of_nat 10 else c)
             (as_read_back rest)
  end.

(** [run.text = text].  Tab, newline and carriage return are accepted
    by lxml's check, so the text elements pass it exactly when the
    whole text does. *)
Definition set_text (r : nat * nat) (text : string) : W unit :=
  fun self =>
    if xml_compatible text
    then update_run r (fun run =>
           mk_Run (as_read_back text) (run_bold run) (run_italic run)
                  (run_size run) (run_color run) (run_page_break run)) self
    else Raise xml_error.

Definition set_bold (r : nat * nat) (b : bool) : W unit :=
  update_run r (fun run =>
    mk_Run (run_text run) (Some b) (run_italic run) (run_size run)
           (run_color run) (run_page_break run)).

Definition set_italic (r : nat * nat) (b : bool) : W unit :=
  update_run r (fun run =>
    mk_Run (run_text run) (run_bold run) (Some b) (run_size run)
           (run_color run) (run_page_break run)).

Definition set_size (r : nat * nat) (size : Z) : W unit :=
  update_run r (fun run =>
    mk_Run (run_text run) (run_bold run) (run_italic run) (Some size)
           (run_color run) (run_page_break run)).

Definition set_color (r : nat * nat) (rgb : Z * Z * Z) : W unit :=
  update_run r (fun run =>
    mk_Run (run_text run) (run_bold run) (run_italic run) (run_size run)
           (Some rgb) (run_page_break run)).

Definition add_break_page (r : nat * nat) : W unit :=
  update_run r (fun run =>
    mk_Run (run_text run) (run_bold run) (run_italic run) (run_size run)
           (run_color run) true).

Definition is_empty (text : string) : bool :=
  match text with EmptyString => true | String _ _ => false end.

(** [paragraph.add_run(text)]: a new run at the end of the paragraph;
    its text is set only when [text] is not empty. *)
Definition add_run (p : nat) (text : string) : W (nat * nat) :=
  fun self =>
    let r := length (par_runs (default (new_paragraph "")
                                       (body (doc self) !! p))) in
    (update_paragraph p (fun par => with_runs par (par_runs par ++ [new_run]));;
     (if is_empty text then mret tt else set_text (p, r) text);;
     mret (p, r)) self.

(** [doc.add_paragraph(text, style)]: a new paragraph at the end of the
    body, with one run when [text] is not empty. *)
Definition append_paragraph (par : Paragraph) : W nat :=
  fun self =>
    Ok (length (body (doc self)),
        with_body self (body (doc self) ++ [par])).

Definition add_paragraph (text : string) (style : string) : W nat :=
  p ← append_paragraph (new_paragraph style);
  (if is_empty text then mret tt else add_run p text;; mret tt);;
  mret p.

(** [doc.add_heading(text, level)]. *)
Definition add_heading (text : string) (level : Z) : W nat :=
  if (level <? 0) || (9 <? level)
  then fun _ => Raise (ValueError ("level must be in range 0-9, got "
                                   +:+ pretty level))
  else add_paragraph text
         (if level =? 0 then "Title" else "Heading " +:+ pretty level).

(** [doc.add_page_break()]. *)
Definition add_page_break : W nat :=
  p ← add_paragraph "" "Normal";
  r ← add_run p "";
  add_break_page r;;
  mret p.

(** A section's content: one string, or a list of paragraphs
    ([isinstance(section_content, list)]). *)
Inductive section_content : Type :=
  | Text (content : string)
  | Paragraphs (paragraphs : list string).

(** [enumerate(xs, start)]. *)
Definition enumerate {A} (start : Z) (xs : list A) : list (Z * A) :=
  zip (seqZ start (Z.of_nat (length xs))) xs.

Definition update_normal_style (f : NormalStyle -> NormalStyle) : W unit :=
  fun self =>
    Ok (tt, mk_ResearchThesisGenerator (title self)
              (mk_Document (f (normal_style (doc self))) (body (doc self)))).

Section Methods.

(** Python's [str.upper] and the [Normal] style of python-docx's default
    template are taken as given. *)
Variable str_upper : string -> string.
Variable template_normal : NormalStyle.

Definition setup_styles : W unit :=
  update_normal_style (fun st =>
    mk_NormalStyle (Some "Times New Roman"%string) (font_size st)
                   (line_spacing_rule st) (space_after st));;
  update_normal_style (fun st =>
    mk_NormalStyle (font_name st) (Some (Pt 12))
                   (line_spacing_rule st) (space_after st));;
  update_normal_style (fun st =>
    mk_NormalStyle (font_name st) (font_size st)
                   (Some ONE_POINT_FIVE) (space_after st));;
  update_normal_style (fun st =>
    mk_NormalStyle (font_name st) (font_size st)
                   (line_spacing_rule st) (Some (Pt 6))).

Definition __init__ (title : string) : result ResearchThesisGenerator :=
  match setup_styles
          (mk_ResearchThesisGenerator title (mk_Document template_normal []))
  with
  | Ok (_, self) => Ok self
  | Raise e => Raise e
  end.

Definition add_cover_page (university college department : string)
    (students : list string) (supervisor year : string) : W unit :=
  p ← add_paragraph "" "Normal";
  set_alignment p CENTER;;
  run ← add_run p (str_upper university);
  set_bold run true;;
  set_size run (Pt 16);;
  p ← add_paragraph "" "Normal";
  set_alignment p CENTER;;
  run ← add_run p college;
  set_size run (Pt 14);;
  p ← add_paragraph "" "Normal";
  set_alignment p CENTER;;
  run ← add_run p department;
  set_size run (Pt 14);;
  add_paragraph (LF +:+ LF) "Normal";;
  p ← add_paragraph "" "Normal";
  set_alignment p CENTER;;
  run ← (fun self => add_run p (title self) self);
  set_bold run true;;
  set_size run (Pt 18);;
  add_paragraph (LF +:+ LF) "Normal";;
  p ← add_paragraph "" "Normal";
  set_alignment p CENTER;;
  run ← add_run p
    ("A Graduation Project Submitted in Partial Fulfillment"
     +:+ LF
     +:+ "of the Requirements for the Degree of Bachelor of Science");
  set_size run (Pt 12);;
  add_paragraph LF "Normal";;
  p ← add_paragraph "" "Normal";
  set_alignment p CENTER;;
  run ← add_run p "Prepared by:";
  set_bold run true;;
  set_size run (Pt 12);;
  for_each students (fun student (_ : unit) =>
    p ← add_paragraph "" "Normal";
    set_alignment p CENTER;;
    run ← add_run p student;
    set_size run (Pt 12)) tt;;
  add_paragraph LF "Normal";;
  p ← add_paragraph "" "Normal";
  set_alignment p CENTER;;
  run ← add_run p "Supervised by:";
  set_bold run true;;
  set_size run (Pt 12);;
  p ← add_paragraph "" "Normal";
  set_alignment p CENTER;;
  run ← add_run p supervisor;
  set_size run (Pt 12);;
  add_paragraph (LF +:+ LF) "Normal";;
  p ← add_paragraph "" "Normal";
  set_alignment p CENTER;;
  run ← add_run p year;
  set_size run (Pt 14);;
  add_page_break;;
  mret tt.

Definition add_abstract (content : string) : W unit :=
  heading ← add_heading "ABSTRACT" 1;
  set_alignment heading CENTER;;
  p ← add_paragraph content "Normal";
  set_alignment p JUSTIFY;;
  add_page_break;;
  mret tt.

Definition add_chapter (chapter_number : Z) (chapter_title : string)
    (sections : list (string * section_content)) : W unit :=
  heading ← add_heading
    ("CHAPTER " +:+ pretty chapter_number +:+ ": " +:+ str_upper chapter_title)
    1;
  set_alignment heading LEFT;;
  for_each (enumerate 1 sections)
    (fun '(i, (section_title, section_content)) (_ : unit) =>
      section_heading ← add_heading
        (pretty chapter_number +:+ "." +:+ pretty i +:+ " " +:+ section_title)
        2;
      match section_content with
      | Paragraphs paragraphs =>
          for_each paragraphs (fun paragraph (_ : unit) =>
            p ← add_paragraph paragraph "Normal";
            set_alignment p JUSTIFY) tt
      | Text content =>
          p ← add_paragraph content "Normal";
          set_alignment p JUSTIFY
      end) tt;;
  add_page_break;;
  mret tt.

Definition add_references (references : list string) : W unit :=
  heading ← add_heading "REFERENCES" 1;
  set_alignment heading CENTER;;
  for_each references (fun ref (_ : unit) =>
    p ← add_paragraph ref "Normal";
    set_alignment p LEFT;;
    set_left_indent p (Inches 1 2);;
    set_first_line_indent p (Inches (-1) 2)) tt;;
  add_page_break;;
  mret tt.

Definition add_figure_placeholder (figure_title description : string)
    : W unit :=
  p ← add_paragraph "" "Normal";
  set_alignment p CENTER;;
  run ← add_run p ("[FIGURE: " +:+ figure_title +:+ "]");
  set_italic run true;;
  set_color run (128, 128, 128);;
  p ← add_paragraph "" "Normal";
  set_alignment p CENTER;;
  run ← add_run p description;
  set_size run (Pt 10);;
  set_italic run true.

(** ** What each method appends

    The paragraphs each method adds to the body and the texts it sets,
    in the order it sets them. *)

Definition text_run (text : string) : Run :=
  mk_Run (as_read_back text) None None None None false.

(** The paragraph [add_paragraph(text, style)] appends. *)
Definition plain_paragraph (text style : string) : Paragraph :=
  mk_Paragraph style None None None
    (if is_empty text then [] else [text_run text]).

Definition page_break_paragraph : Paragraph :=
  mk_Paragraph "Normal" None None None
    [mk_Run "" None None None None true].

(** The second-level headings among some paragraphs. *)
Definition second_level_headings (l : list Paragraph) : list Paragraph :=
  filter (fun par => par_style par = "Heading 2"%string) l.

Definition is_page_break (par : Paragraph) : bool :=
  existsb run_page_break (par_runs par).

(** [paragraph.text]: the texts of the runs, joined. *)
Definition paragraph_text (par : Paragraph) : string :=
  foldr String.append "" (run_text <$> par_runs par).

Definition centered_paragraph (text : string) (bold : option bool)
    (size : Z) : Paragraph :=
  mk_Paragraph "Normal" (Some CENTER) None None
    [mk_Run (as_read_back text) bold None (Some size) None false].

Definition aligned_paragraph (text style : string)
    (a : WD_ALIGN_PARAGRAPH) : Paragraph :=
  mk_Paragraph style (Some a) None None
    (if is_empty text then [] else [text_run text]).

Definition reference_paragraph (ref : string) : Paragraph :=
  mk_Paragraph "Normal" (Some LEFT) (Some (Inches 1 2))
    (Some (Inches (-1) 2))
    (if is_empty ref then [] else [text_run ref]).

Definition content_paragraphs (c : section_content) : list string :=
  match c with Text content => [content] | Paragraphs l => l end.

Definition section_heading_text (chapter_number i : Z)
    (section_title : string) : string :=
  pretty chapter_number +:+ "." +:+ pretty i +:+ " " +:+ section_title.

Definition section_texts (chapter_number : Z)
    (s : Z * (string * section_content)) : list string :=
  section_heading_text chapter_number (fst s) (fst (snd s))
  :: content_paragraphs (snd (snd s)).

Definition section_blocks (chapter_number : Z)
    (s : Z * (string * section_content)) : list Paragraph :=
  plain_paragraph
    (section_heading_text chapter_number (fst s) (fst (snd s))) "Heading 2"
  :: ((fun c => aligned_paragraph c "Normal" JUSTIFY)
        <$> content_paragraphs (snd (snd s))).

Definition chapter_heading_text (chapter_number : Z)
    (chapter_title : string) : string :=
  "CHAPTER " +:+ pretty chapter_number +:+ ": " +:+ str_upper chapter_title.

Definition chapter_texts (chapter_number : Z) (chapter_title : string)
    (sections : list (string * section_content)) : list string :=
  chapter_heading_text chapter_number chapter_title
  :: concat (section_texts chapter_number <$> enumerate 1 sections).

Definition chapter_blocks (chapter_number : Z) (chapter_title : string)
    (sections : list (string * section_content)) : list Paragraph :=
  aligned_paragraph (chapter_heading_text chapter_number chapter_title)
                    "Heading 1" LEFT
  :: concat (section_blocks chapter_number <$> enumerate 1 sections)
  ++ [page_break_paragraph].

Definition references_blocks (references : list string) : list Paragraph :=
  aligned_paragraph "REFERENCES" "Heading 1" CENTER
  :: (reference_paragraph <$> references) ++ [page_break_paragraph].

Definition abstract_blocks (content : string) : list Paragraph :=
  [ aligned_paragraph "ABSTRACT" "Heading 1" CENTER;
    aligned_paragraph content "Normal" JUSTIFY;
    page_break_paragraph ].

Definition figure_blocks (figure_title description : string)
    : list Paragraph :=
  [ mk_Paragraph "Normal" (Some CENTER) None None
      [mk_Run (as_read_back ("[FIGURE: " +:+ figure_title +:+ "]"))
              None (Some true) None
              (Some (128, 128, 128)) false];
    mk_Paragraph "Normal" (Some CENTER) None None
      [mk_Run (as_read_back description) None (Some true) (Some (Pt 10))
              None false] ].

Definition cover_texts (title university college department : string)
    (students : list string) (supervisor year : string) : list string :=
  [str_upper university; college; department; title]
  ++ students ++ [supervisor; year].

Definition cover_blocks (title university college department : string)
    (students : list string) (supervisor year : string) : list Paragraph :=
  [ centered_paragraph (str_upper university) (Some true) (Pt 16);
    centered_paragraph college None (Pt 14);
    centered_paragraph department None (Pt 14);
    plain_paragraph (LF +:+ LF) "Normal";
    centered_paragraph title (Some true) (Pt 18);
    plain_paragraph (LF +:+ LF) "Normal";
    centered_paragraph
      ("A Graduation Project Submitted in Partial Fulfillment"
       +:+ LF
       +:+ "of the Requirements for the Degree of Bachelor of Science")
      None (Pt 12);
    plain_paragraph LF "Normal";
    centered_paragraph "Prepared by:" (Some true) (Pt 12) ]
  ++ ((fun student => centered_paragraph student None (Pt 12)) <$> students)
  ++ [ plain_paragraph LF "Normal";
       centered_paragraph "Supervised by:" (Some true) (Pt 12);
       centered_paragraph supervisor None (Pt 12);
       plain_paragraph (LF +:+ LF) "Normal";
       centered_paragraph year None (Pt 14);
       page_break_paragraph ].

(** ** Scripts of builder calls

    A thesis is built the way [create_sample_thesis] does it: one
    generator, then a sequence of calls of the methods above, each
    running only if the ones before it returned. *)

Inductive builder_call : Type :=
| CoverPage (university college department : string)
    (students : list string) (supervisor year : string)
| Abstract (content : string)
| Chapter (chapter_number : Z) (chapter_title : string)
    (sections : list (string * section_content))
| References (references : list string)
| FigurePlaceholder (figure_title description : string).

Definition call (c : builder_call) : W unit :=
  match c with
  | CoverPage university college department students supervisor year =>
      add_cover_page university college department students supervisor year
  | Abstract content => add_abstract content
  | Chapter chapter_number chapter_title sections =>
      add_chapter chapter_number chapter_title sections
  | References references => add_references references
  | FigurePlaceholder figure_title description =>
      add_figure_placeholder figure_title description
  end.

Fixpoint calls (cs : list builder_call) : W unit :=
  match cs with
  | [] => mret tt
  | c :: cs => call c;; calls cs
  end.

(** The texts a call hands to python-docx, and the paragraphs it appends. *)
Definition call_texts (title : string) (c : builder_call) : list string :=
  match c with
  | CoverPage university college department students supervisor year =>
      cover_texts title university college department students supervisor year
  | Abstract content => [content]
  | Chapter chapter_number chapter_title sections =>
      chapter_texts chapter_number chapter_title sections
  | References references => references
  | FigurePlaceholder figure_title description =>
      [("[FIGURE: " +:+ figure_title +:+ "]")%string; description]
  end.

Definition call_blocks (title : string) (c : builder_call) : list Paragraph :=
  match c with
  | CoverPage university college department students supervisor year =>
      cover_blocks title university college department students supervisor year
  | Abstract content => abstract_blocks content
  | Chapter chapter_number chapter_title sections =>
      chapter_blocks chapter_number chapter_title sections
  | References references => references_blocks references
  | FigurePlaceholder figure_title description =>
      figure_blocks figure_title description
  end.

Definition page_breaks (l : list Paragraph) : nat :=
  length (List.filter is_page_break l).

Definition is_figure (c : builder_call) : bool :=
  match c with FigurePlaceholder _ _ => true | _ => false end.

End Methods.

End Thesis.

(** ** Vocabulary of the properties *)

Definition valid_seed (seed : Z) : Prop := 0 <= seed <= 4294967295.

Definition well_key (i : Z) : string := "Well_" +:+ pretty i.

(** The maps [generate_well_data] builds: one insertion per well, in order. *)
Definition wells_of (tbl : Z -> DataFrame) (xs : list Z)
    (acc : gmap string DataFrame) : gmap string DataFrame :=
  foldl (fun m i => <[well_key i := tbl i]> m) acc xs.

(** A call returns, and its value satisfies [P]. *)
Definition yields {A} (r : result A) (P : A -> Prop) : Prop :=
  match r with Ok a => P a | Raise _ => False end.

(** The amplitudes before normalisation. *)
Definition raw_amplitudes (t2_times : list R) : list R :=
  (0.3 [.*] np_exp ((fun l => - ((l - ln 3) ^ 2) / (2 * 0.5 ^ 2))%R
                      <$> np_log t2_times)
   [+] 0.7 [.*] np_exp ((fun l => - ((l - ln 200) ^ 2) / (2 * 0.8 ^ 2))%R
                          <$> np_log t2_times))%array.

(** The three metrics of one model's column against the core column. *)
Definition model_statistics (core pred : list R) : ModelStatistics :=
  let x := Fin <$> core in
  let y := Fin <$> pred in
  {| correlation := np_corrcoef_0_1 (np_log10 x) (np_log10 y);
     rmse_log :=
       np_sqrt (np_mean (ser_square (ser_sub (np_log10 x) (np_log10 y))));
     mape := f64_mul (np_mean (np_abs (ser_div (ser_sub x y) x))) (Fin 100) |}.

(** The same metrics over the reals, which is what the floating-point
    operations compute where none of them meets a zero divisor, the
    logarithm of a value that is not positive or an empty column. *)
Definition real_log10 (a : list R) : list R := (fun x => ln x / ln 10)%R <$> a.
Definition real_sum (a : list R) : R := foldr Rplus 0%R a.
Definition real_mean (a : list R) : R := (real_sum a / INR (length a))%R.

Definition real_cov (x y : list R) : R :=
  let fact := if (length x <=? 1)%nat then 0%R else (INR (length x) - 1)%R in
  let dx := (fun v => v - real_mean x)%R <$> x in
  let dy := (fun v => v - real_mean y)%R <$> y in
  (real_sum (dx [*] dy)%array * (1 / fact))%R.

Definition real_corrcoef (x y : list R) : R :=
  clip1 (-1) 1 (real_cov x y / sqrt (real_cov x x) / sqrt (real_cov y y))%R.

Definition real_rmse_log (core pred : list R) : R :=
  sqrt (real_mean ((real_log10 core [-] real_log10 pred) [^] 2)%array).

Definition real_mape (core pred : list R) : R :=
  (real_mean (Rabs <$> ((core [-] pred) [/] core)%array) * 100)%R.

(** The table [generate_nmr_permeability_data] returns for
    [n_samples = 0]: ten empty columns. *)
Definition empty_frame : DataFrame :=
  mk_DataFrame [] [] [] [] [] [] [] [] [] [].

(** A one-row table whose core permeability is exactly zero. *)
Definition zero_core_frame : DataFrame :=
  mk_DataFrame [2000%R] [0.2%R] [100%R] [0.05%R] [0.15%R] [0.1%R]
               [0%R] [1%R] [1%R] [1%R].

(** The 53 bits of the first double a stream seeded with [seed] gives:
    the porosity of the first sample drawn from it is
    [0.05 + 0.3 * first_double_bits seed / 2^53]. *)
Abbreviation first_double_bits seed :=
  (fst (mt19937_next_double_bits (mt19937_seed seed))).


(** The generator and the stream used to instantiate the properties. *)
Definition three_samples : NMRDataGenerator := {| n_samples := 3 |}.
Definition stream_42 : rng_state := mt19937_seed 42.

(** Construct a generator, generate its wells, then one more dataset. *)
Definition wells_then_dataset (legacy_gauss : rng_state -> R * rng_state)
    (sample_count random_seed well_count : Z) : M DataFrame :=
  g ← __init__ sample_count random_seed;
  _ ← generate_well_data legacy_gauss g well_count;
  generate_nmr_permeability_data legacy_gauss g.

(** Generate a dataset and compute its statistics, as the module's
    [__main__] block does before printing them. *)
Definition generate_and_score (legacy_gauss : rng_state -> R * rng_state)
    (self : NMRDataGenerator) : M (gmap string ModelStatistics) :=
  data ← generate_nmr_permeability_data legacy_gauss self;
  lift (returned (calculate_statistics self data)).

(** * Properties *)

(** ** The stream *)

(** The reference outputs of the generator: the first word for the seed
    5489 of the reference implementation, and the first doubles that
    [np.random.seed(42)] and [np.random.seed(0)] give
    (0.3745401188473625 and 0.5488135039273248, times 2^53). *)
Example mt19937_reference_word :
  fst (mt19937_next (mt19937_seed 5489)) = 3499211612.
Proof. vm_compute. reflexivity. Qed.


Example mt19937_seed0_first_double :
  fst (mt19937_next_double_bits (mt19937_seed 0)) = 4943272583565992.
Proof. vm_compute. reflexivity. Qed.

Lemma u32_range (x : Z) : 0 <= u32 x < 4294967296.
Proof.
  unfold u32. change 4294967295 with (Z.ones 32).
  rewrite Z.land_ones by lia. apply Z.mod_pos_bound. lia.
Qed.

Lemma mt19937_next_range (st : rng_state) :
  0 <= fst (mt19937_next st) < 4294967296.
Proof. unfold mt19937_next, temper. simpl. apply u32_range. Qed.

Lemma mt19937_next_double_bits_range (st : rng_state) :
  0 <= fst (mt19937_next_double_bits st) < 9007199254740992.
Proof.
  unfold mt19937_next_double_bits.
  pose proof (mt19937_next_range st) as Ha.
  destruct (mt19937_next st) as [a st1]. simpl in Ha.
  pose proof (mt19937_next_range st1) as Hb.
  destruct (mt19937_next st1) as [b st2]. simpl in Hb. simpl fst.
  rewrite !Z.shiftr_div_pow2 by lia.
  change (2 ^ 5) with 32. change (2 ^ 6) with 64.
  assert (0 <= a / 32 < 134217728).
  { split; [apply Z.div_pos; lia | apply Z.div_lt_upper_bound; lia]. }
  assert (0 <= b / 64 < 67108864).
  { split; [apply Z.div_pos; lia | apply Z.div_lt_upper_bound; lia]. }
  lia.
Qed.

Lemma mt19937_next_double_range (st : rng_state) :
  (0 <= fst (mt19937_next_double st) < 1)%R.
Proof.
  unfold mt19937_next_double.
  pose proof (mt19937_next_double_bits_range st) as H.
  destruct (mt19937_next_double_bits st) as [bits st']. simpl in *.
  destruct H as [H0 H1]. apply IZR_le in H0. apply IZR_lt in H1. lra.
Qed.

Lemma random_uniform_range (lower range : R) (st : rng_state) :
  (0 < range)%R ->
  (lower <= fst (random_uniform lower range st) < lower + range)%R.
Proof.
  intros Hr. unfold random_uniform.
  pose proof (mt19937_next_double_range st) as H.
  destruct (mt19937_next_double st) as [d st']. simpl in *. nra.
Qed.

Lemma draws_length {A} (draw : rng_state -> A * rng_state) (n : nat)
    (st : rng_state) :
  length (fst (draws draw n st)) = n.
Proof.
  revert st. induction n as [|n IH]; intros st; simpl; [reflexivity|].
  destruct (draw st) as [x st1]. specialize (IH st1).
  destruct (draws draw n st1) as [xs st2]. simpl in *. congruence.
Qed.

Lemma draws_Forall {A} (P : A -> Prop) (draw : rng_state -> A * rng_state) :
  (forall st, P (fst (draw st))) ->
  forall n st, Forall P (fst (draws draw n st)).
Proof.
  intros Hdraw n. induction n as [|n IH]; intros st; simpl; [constructor|].
  specialize (Hdraw st). destruct (draw st) as [x st1]. specialize (IH st1).
  destruct (draws draw n st1) as [xs st2]. simpl in *. constructor; assumption.
Qed.


(** ** Arrays *)

Lemma np_clip_range (a : list R) (lo hi : R) :
  (lo <= hi)%R -> Forall (fun x => lo <= x <= hi)%R (np_clip a lo hi).
Proof.
  intros Hle. unfold np_clip. apply Forall_fmap, Forall_forall.
  intros x _. simpl. unfold clip1, Rmin, Rmax.
  destruct (Rle_dec x lo); destruct (Rle_dec _ hi); lra.
Qed.

Lemma np_clip_length (a : list R) (lo hi : R) :
  length (np_clip a lo hi) = length a.
Proof. unfold np_clip. apply length_fmap. Qed.

Lemma np_linspace_raises (start stop : R) (num : Z) :
  num < 0 -> raises (np_linspace start stop num).
Proof.
  intros H. unfold np_linspace.
  destruct (Z.ltb_spec num 0); [exact I | lia].
Qed.

Lemma np_linspace_length (start stop : R) (num : Z) :
  0 <= num ->
  exists y, np_linspace start stop num = Ok y /\ length y = Z.to_nat num.
Proof.
  intros H. unfold np_linspace.
  destruct (Z.ltb_spec num 0); [lia|].
  eexists. split; [reflexivity|].
  destruct (1 <? num); destruct (0 <? num - 1);
    rewrite ?length_insert, !length_fmap, length_seqZ; reflexivity.
Qed.

(** For at least two samples, element [i] is [start + i * step]; this also
    holds of the last one, which the code sets to [stop]. *)
Lemma np_linspace_lookup (start stop : R) (num : Z) :
  2 <= num ->
  exists y, np_linspace start stop num = Ok y /\
    length y = Z.to_nat num /\
    forall i : nat, Z.of_nat i < num ->
      y !! i = Some (start + IZR (Z.of_nat i) * ((stop - start) / IZR (num - 1)))%R.
Proof.
  intros H. destruct (np_linspace_length start stop num) as (y & Hy & Hlen); [lia|].
  exists y. split; [exact Hy|]. split; [exact Hlen|].
  intros i Hi. unfold np_linspace in Hy.
  destruct (Z.ltb_spec num 0); [lia|].
  destruct (Z.ltb_spec 0 (num - 1)); [|lia].
  destruct (Z.ltb_spec 1 num); [|lia].
  injection Hy as <-.
  assert (Hnz : (IZR (num - 1) <> 0)%R) by (apply not_0_IZR; lia).
  destruct (decide (i = Z.to_nat (num - 1))) as [->|Hne].
  - rewrite list_lookup_insert_eq
      by (rewrite !length_fmap, length_seqZ; lia).
    f_equal. rewrite Z2Nat.id by lia. field. exact Hnz.
  - rewrite list_lookup_insert_ne by congruence.
    rewrite !list_lookup_fmap, lookup_seqZ_lt by lia. simpl.
    f_equal. rewrite Z.add_0_l. ring.
Qed.

Lemma np_linspace_increasing (start stop : R) (num : Z) (y : list R) :
  2 <= num -> (start < stop)%R ->
  np_linspace start stop num = Ok y ->
  strictly_increasing y /\
  evenly_spaced ((stop - start) / IZR (num - 1)) y /\
  y !! 0%nat = Some start /\
  y !! Z.to_nat (num - 1) = Some stop.
Proof.
  intros Hnum Hlt Hy.
  destruct (np_linspace_lookup start stop num Hnum) as (y' & Hy' & Hlen & Hlook).
  rewrite Hy in Hy'. injection Hy' as <-.
  assert (Hpos : (0 < IZR (num - 1))%R) by (apply IZR_lt; lia).
  assert (Hstep : (0 < (stop - start) / IZR (num - 1))%R).
  { apply Rdiv_lt_0_compat; lra. }
  assert (Hin : forall i x, y !! i = Some x -> Z.of_nat i < num).
  { intros i x Hx. apply lookup_lt_Some in Hx. lia. }
  repeat split.
  - intros i j x x' Hi Hj Hij.
    rewrite Hlook in Hi by eauto. rewrite Hlook in Hj by eauto.
    injection Hi as <-. injection Hj as <-.
    assert (IZR (Z.of_nat i) < IZR (Z.of_nat j))%R by (apply IZR_lt; lia).
    nra.
  - intros i x x' Hi Hj.
    rewrite Hlook in Hi by eauto. rewrite Hlook in Hj by eauto.
    injection Hi as <-. injection Hj as <-.
    rewrite Nat2Z.inj_succ, succ_IZR. ring.
  - rewrite Hlook by lia. f_equal. simpl. ring.
  - rewrite Hlook by lia. f_equal. rewrite Z2Nat.id by lia. field. lra.
Qed.

(** ** Running the monad *)

Lemma bind_Ok {A B} (m : M A) (f : A -> M B) (st st' : rng_state) (a : A) :
  m st = Ok (a, st') -> (m ≫= f) st = f a st'.
Proof. intros H. unfold mbind, M_bind. rewrite H. reflexivity. Qed.

Lemma bind_Raise {A B} (m : M A) (f : A -> M B) (st : rng_state) (e : exception) :
  m st = Raise e -> (m ≫= f) st = Raise e.
Proof. intros H. unfold mbind, M_bind. rewrite H. reflexivity. Qed.

Lemma lift_Ok {A} (r : result A) (a : A) (st : rng_state) :
  r = Ok a -> lift r st = Ok (a, st).
Proof. intros ->. reflexivity. Qed.

Lemma np_random_uniform_Ok (low high : R) (size : Z) (st : rng_state) :
  0 <= size ->
  let d := draws (random_uniform low (high - low)) (Z.to_nat size) st in
  np_random_uniform low high size st = Ok (fst d, snd d).
Proof.
  intros H d. unfold np_random_uniform.
  destruct (Z.ltb_spec size 0); [lia|]. fold d. destruct d; reflexivity.
Qed.

Lemma np_random_uniform_Raise (low high : R) (size : Z) (st : rng_state) :
  size < 0 ->
  np_random_uniform low high size st
  = Raise (ValueError "negative dimensions are not allowed").
Proof.
  intros H. unfold np_random_uniform.
  destruct (Z.ltb_spec size 0); [reflexivity | lia].
Qed.

Lemma np_random_seed_Ok (seed : Z) (st : rng_state) :
  0 <= seed <= 4294967295 ->
  np_random_seed seed st = Ok (tt, mt19937_seed seed).
Proof.
  intros H. unfold np_random_seed.
  destruct (Z.ltb_spec seed 0); [lia|].
  destruct (Z.ltb_spec 4294967295 seed); [lia|]. reflexivity.
Qed.

Lemma np_random_seed_Raise (seed : Z) (st : rng_state) :
  ~ 0 <= seed <= 4294967295 ->
  np_random_seed seed st
  = Raise (ValueError "Seed must be between 0 and 2**32 - 1").
Proof.
  intros H. unfold np_random_seed.
  destruct (Z.ltb_spec seed 0); [reflexivity|].
  destruct (Z.ltb_spec 4294967295 seed); [reflexivity|]. lia.
Qed.

(** Seeding forgets the stream it replaces. *)
Lemma np_random_seed_any_state (seed : Z) (st1 st2 : rng_state) :
  np_random_seed seed st1 = np_random_seed seed st2.
Proof. reflexivity. Qed.

Lemma pd_DataFrame_Ok (n : nat) (data : DataFrame) :
  has_rows n data -> pd_DataFrame data = Ok data.
Proof.
  intros H. unfold pd_DataFrame.
  assert (Hd : length (Depth_m data) = n).
  { unfold has_rows, columns in H. apply Forall_inv in H. exact H. }
  rewrite Hd.
  replace (forallb _ _) with true; [reflexivity|].
  symmetry. apply forallb_forall. intros c Hc.
  unfold has_rows in H. rewrite Forall_forall in H.
  apply Nat.eqb_eq, H. apply list_elem_of_In. exact Hc.
Qed.

Lemma row_columns (data : DataFrame) (i : nat) (s : Sample) :
  row data i = Some s ->
  Depth_m data !! i = Some (depth_m s) /\
  Porosity data !! i = Some (porosity s) /\
  T2_GM_ms data !! i = Some (t2_geometric_mean_ms s) /\
  BFV data !! i = Some (bound_fluid_volume s) /\
  FFI data !! i = Some (free_fluid_index s) /\
  Clay_Volume data !! i = Some (clay_volume s) /\
  Core_Permeability_mD data !! i = Some (core_permeability_md s) /\
  Coates_Permeability_mD data !! i = Some (coates_permeability_md s) /\
  Timur_Coates_Permeability_mD data !! i = Some (timur_coates_permeability_md s) /\
  SDR_Permeability_mD data !! i = Some (sdr_permeability_md s).
Proof.
  unfold row. intros H.
  repeat match type of H with
         | (mbind _ ?o) = Some _ => destruct o eqn:?; simpl in H; [|discriminate]
         end.
  injection H as <-. simpl. repeat split; reflexivity.
Qed.

Lemma has_rows_row (n : nat) (data : DataFrame) (i : nat) :
  has_rows n data -> (i < n)%nat -> is_Some (row data i).
Proof.
  unfold has_rows, columns. rewrite !Forall_cons. simpl.
  intros (H0 & H1 & H2 & H3 & H4 & H5 & H6 & H7 & H8 & H9 & _) Hi.
  unfold row.
  repeat match goal with
         | H : length ?l = n |- context [?l !! i] =>
             destruct (lookup_lt_is_Some_2 l i ltac:(lia)) as [? ->]; clear H
         end.
  simpl. eauto.
Qed.

(** ** One generation run *)

Section GenerationRun.

Local Open Scope R_scope.
Local Open Scope array_scope.

Variable legacy_gauss : rng_state -> R * rng_state.

Lemma np_random_lognormal_Ok (mean sigma : R) (size : Z) (st : rng_state) :
  (0 <= size)%Z ->
  let d := draws (legacy_lognormal legacy_gauss mean sigma) (Z.to_nat size) st in
  np_random_lognormal legacy_gauss mean sigma size st = Ok (fst d, snd d).
Proof.
  intros H d. unfold np_random_lognormal.
  destruct (Z.ltb_spec size 0); [lia|]. fold d. destruct d; reflexivity.
Qed.

Lemma legacy_lognormal_pos (mean sigma : R) (st : rng_state) :
  0 < fst (legacy_lognormal legacy_gauss mean sigma st).
Proof.
  unfold legacy_lognormal. destruct (legacy_gauss st) as [g st'].
  simpl. apply exp_pos.
Qed.

Ltac array_length :=
  unfold coates_form, arr_mul, arr_div, arr_sub, arr_add, scal_mul,
    mul_scal, arr_pow, arr_rpow, np_clip;
  repeat first [ rewrite length_zip_with | rewrite length_fmap
               | rewrite draws_length ];
  try lia.

Lemma table_of_run_rows (n : nat) (st : rng_state) (depth : list R) :
  length depth = n ->
  has_rows n (table_of_run depth (draws_of_run legacy_gauss n st)).
Proof.
  intros Hd. unfold has_rows, columns, table_of_run, draws_of_run.
  repeat apply Forall_cons_2; simpl; try array_length.
  constructor.
Qed.

(** What one call of [generate_nmr_permeability_data] does: for a
    non-negative [n_samples] it returns the table of the eight draws and
    leaves the stream after them; for a negative one the first draw
    raises. *)
Lemma generate_run (self : NMRDataGenerator) (st : rng_state) :
  (0 <= n_samples self)%Z ->
  exists depth,
    np_linspace 2000 2500 (n_samples self) = Ok depth /\
    length depth = Z.to_nat (n_samples self) /\
    generate_nmr_permeability_data legacy_gauss self st
    = Ok (table_of_run depth
            (draws_of_run legacy_gauss (Z.to_nat (n_samples self)) st),
          stream_after
            (draws_of_run legacy_gauss (Z.to_nat (n_samples self)) st)).
Proof.
  intros Hn.
  destruct (np_linspace_length 2000 2500 (n_samples self) Hn)
    as (depth & Hdepth & Hlen).
  exists depth. split; [exact Hdepth|]. split; [exact Hlen|].
  unfold generate_nmr_permeability_data.
  repeat first
    [ erewrite bind_Ok by (apply np_random_uniform_Ok; exact Hn)
    | erewrite bind_Ok by (apply np_random_lognormal_Ok; exact Hn) ].
  erewrite bind_Ok by (apply lift_Ok; exact Hdepth).
  apply lift_Ok.
  apply (pd_DataFrame_Ok (Z.to_nat (n_samples self))).
  apply (table_of_run_rows _ st depth Hlen).
Qed.

Lemma generate_raises (self : NMRDataGenerator) (st : rng_state) :
  (n_samples self < 0)%Z ->
  generate_nmr_permeability_data legacy_gauss self st
  = Raise (ValueError "negative dimensions are not allowed").
Proof.
  intros Hn. unfold generate_nmr_permeability_data.
  apply bind_Raise, np_random_uniform_Raise, Hn.
Qed.

End GenerationRun.

(** ** Generated datasets *)

Section GeneratedData.

Local Open Scope R_scope.
Local Open Scope array_scope.

Variable legacy_gauss : rng_state -> R * rng_state.

Lemma porosity_range (n : nat) (st : rng_state) :
  Forall (fun p => 0.05 <= p < 0.35)
         (u_porosity (draws_of_run legacy_gauss n st)).
Proof.
  unfold draws_of_run. simpl. apply draws_Forall. intros st'.
  pose proof (random_uniform_range 0.05 (0.35 - 0.05) st'). lra.
Qed.

Lemma fraction_range (n : nat) (st : rng_state) :
  Forall (fun f => 0.2 <= f < 0.6)
         (u_fraction (draws_of_run legacy_gauss n st)).
Proof.
  unfold draws_of_run. simpl. apply draws_Forall. intros st'.
  pose proof (random_uniform_range 0.2 (0.6 - 0.2) st'). lra.
Qed.

(** C5. In every generated dataset every sample has its bound fluid
    volume at most its porosity, and its free fluid index equal to
    porosity minus bound fluid volume and not negative.  The dataset
    has [n_samples] samples. *)
Theorem bound_fluid_le_porosity (self : NMRDataGenerator) (st : rng_state) :
  (0 <= n_samples self)%Z ->
  returns (generate_nmr_permeability_data legacy_gauss self st) (fun data =>
    has_rows (Z.to_nat (n_samples self)) data /\
    forall i s, row data i = Some s ->
      bound_fluid_volume s <= porosity s /\
      free_fluid_index s = porosity s - bound_fluid_volume s /\
      0 <= free_fluid_index s).
Proof.
  intros Hn.
  destruct (generate_run legacy_gauss self st Hn) as (depth & _ & Hlen & ->).
  simpl. split; [apply table_of_run_rows; exact Hlen|].
  intros i s Hrow.
  destruct (row_columns _ _ _ Hrow) as (_ & Hp & _ & Hb & Hf & _).
  simpl in Hp, Hb, Hf. unfold arr_sub, arr_mul in Hb, Hf.
  apply lookup_zip_with_Some in Hb as (p & fr & Hb & Hp' & Hfr).
  apply lookup_zip_with_Some in Hf as (p' & b & Hf & Hp'' & Hb').
  rewrite Hp in Hp', Hp''. injection Hp' as <-. injection Hp'' as <-.
  apply lookup_zip_with_Some in Hb' as (p'' & fr' & Hb' & Hp' & Hfr').
  rewrite Hp in Hp'. injection Hp' as <-.
  rewrite Hfr in Hfr'. injection Hfr' as <-. subst b.
  pose proof (Forall_lookup_1 _ _ _ _ (porosity_range _ st) Hp) as Hpr.
  pose proof (Forall_lookup_1 _ _ _ _ (fraction_range _ st) Hfr) as Hfrr.
  simpl in Hpr, Hfrr. rewrite Hb, Hf. nra.
Qed.

(** C6. In every generated dataset each of the four permeability
    fields of every sample lies in [0.01, 10000]. *)
Theorem permeabilities_clamped (self : NMRDataGenerator) (st : rng_state) :
  (0 <= n_samples self)%Z ->
  returns (generate_nmr_permeability_data legacy_gauss self st) (fun data =>
    forall i s, row data i = Some s ->
      0.01 <= core_permeability_md s <= 10000 /\
      0.01 <= coates_permeability_md s <= 10000 /\
      0.01 <= timur_coates_permeability_md s <= 10000 /\
      0.01 <= sdr_permeability_md s <= 10000).
Proof.
  intros Hn.
  destruct (generate_run legacy_gauss self st Hn) as (depth & _ & Hlen & ->).
  simpl. intros i s Hrow.
  destruct (row_columns _ _ _ Hrow)
    as (_ & _ & _ & _ & _ & _ & Hk & Hkc & Hkt & Hks).
  simpl in Hk, Hkc, Hkt, Hks.
  assert (Hc : forall a x, np_clip a 0.01 10000 !! i = Some x ->
                           0.01 <= x <= 10000).
  { intros a x Hx.
    apply (Forall_lookup_1 _ _ _ _ (np_clip_range a 0.01 10000 ltac:(lra)) Hx). }
  repeat split; eapply Hc; eassumption.
Qed.

(** C7. The ground truth and the Coates estimate of one run come from
    the same expression [porosity^4 * (FFI / BFV)^2 * 10000] of that
    run's porosity, FFI and BFV columns; they differ in the noise
    array each is multiplied by before the clamp: two successive draws
    from the stream, LogNormal(0, 0.3) and then LogNormal(0, 0.15). *)
Theorem coates_shares_ground_truth_form (self : NMRDataGenerator)
    (st : rng_state) :
  (0 <= n_samples self)%Z ->
  exists st_noise : rng_state,
    let n := Z.to_nat (n_samples self) in
    let core_noise := draws (legacy_lognormal legacy_gauss 0 0.3) n st_noise in
    let coates_noise :=
      draws (legacy_lognormal legacy_gauss 0 0.15) n (snd core_noise) in
    returns (generate_nmr_permeability_data legacy_gauss self st) (fun data =>
      let base := (Porosity data [^] 4) [*] (FFI data [/] BFV data) [^] 2
                  [*.] 10000 in
      Core_Permeability_mD data
        = np_clip (base [*] fst core_noise) 0.01 10000 /\
      Coates_Permeability_mD data
        = np_clip (base [*] fst coates_noise) 0.01 10000).
Proof.
  intros Hn.
  destruct (generate_run legacy_gauss self st Hn) as (depth & _ & Hlen & ->).
  eexists. simpl. split; reflexivity.
Qed.

(** C9. For at least two samples the depth column has [n_samples]
    evenly spaced, strictly increasing values, the first 2000 and the
    last 2500; it is [linspace(2000, 2500, n_samples)] whatever the
    stream and the Gaussian draws are. *)
Theorem depth_evenly_spaced (self : NMRDataGenerator) (st : rng_state) :
  (2 <= n_samples self)%Z ->
  returns (generate_nmr_permeability_data legacy_gauss self st) (fun data =>
    length (Depth_m data) = Z.to_nat (n_samples self) /\
    evenly_spaced (500 / IZR (n_samples self - 1)) (Depth_m data) /\
    strictly_increasing (Depth_m data) /\
    Depth_m data !! 0%nat = Some 2000 /\
    Depth_m data !! Z.to_nat (n_samples self - 1) = Some 2500 /\
    np_linspace 2000 2500 (n_samples self) = Ok (Depth_m data)).
Proof.
  intros Hn.
  destruct (generate_run legacy_gauss self st ltac:(lia))
    as (depth & Hdepth & Hlen & ->).
  simpl.
  destruct (np_linspace_increasing 2000 2500 _ depth Hn ltac:(lra) Hdepth)
    as (Hinc & Heven & Hfirst & Hlast).
  replace (2500 - 2000) with 500 in Heven by lra.
  repeat split; assumption.
Qed.

End GeneratedData.

Lemma bound_fluid_le_porosity_witness :
  returns (generate_nmr_permeability_data polar_gauss three_samples stream_42)
    (fun data =>
      has_rows 3 data /\
      forall i s, row data i = Some s ->
        (bound_fluid_volume s <= porosity s)%R /\
        (free_fluid_index s = porosity s - bound_fluid_volume s)%R /\
        (0 <= free_fluid_index s)%R).
Proof.
  apply (bound_fluid_le_porosity polar_gauss three_samples stream_42).
  simpl. lia.
Defined.

Lemma permeabilities_clamped_witness :
  returns (generate_nmr_permeability_data polar_gauss three_samples stream_42)
    (fun data =>
      forall i s, row data i = Some s ->
        (0.01 <= core_permeability_md s <= 10000)%R /\
        (0.01 <= coates_permeability_md s <= 10000)%R /\
        (0.01 <= timur_coates_permeability_md s <= 10000)%R /\
        (0.01 <= sdr_permeability_md s <= 10000)%R).
Proof.
  apply (permeabilities_clamped polar_gauss three_samples stream_42).
  simpl. lia.
Defined.

Lemma coates_shares_ground_truth_form_witness :
  exists st_noise : rng_state,
    let core_noise := draws (legacy_lognormal polar_gauss 0 0.3) 3 st_noise in
    let coates_noise :=
      draws (legacy_lognormal polar_gauss 0 0.15) 3 (snd core_noise) in
    returns (generate_nmr_permeability_data polar_gauss three_samples stream_42)
      (fun data =>
        let base := ((Porosity data [^] 4) [*] (FFI data [/] BFV data) [^] 2
                     [*.] 10000)%array in
        Core_Permeability_mD data
          = np_clip (base [*] fst core_noise)%array 0.01 10000 /\
        Coates_Permeability_mD data
          = np_clip (base [*] fst coates_noise)%array 0.01 10000).
Proof.
  apply (coates_shares_ground_truth_form polar_gauss three_samples stream_42).
  simpl. lia.
Defined.

Lemma depth_evenly_spaced_witness :
  returns (generate_nmr_permeability_data polar_gauss three_samples stream_42)
    (fun data =>
      length (Depth_m data) = 3%nat /\
      evenly_spaced (500 / 2) (Depth_m data) /\
      strictly_increasing (Depth_m data) /\
      Depth_m data !! 0%nat = Some 2000%R /\
      Depth_m data !! 2%nat = Some 2500%R /\
      np_linspace 2000 2500 3 = Ok (Depth_m data)).
Proof.
  apply (depth_evenly_spaced polar_gauss three_samples stream_42).
  simpl. lia.
Defined.

(** The depth column of three samples, evaluated. *)
Example depth_of_three_samples :
  np_linspace 2000 2500 3 = Ok [(0 * ((2500 - 2000) / 2) + 2000)%R;
                                (1 * ((2500 - 2000) / 2) + 2000)%R;
                                2500%R].
Proof. reflexivity. Qed.

(** ** Seeding and reproducibility *)


#[global] Instance well_key_inj : Inj (=) (=) well_key.
Proof.
  intros i j H. unfold well_key in H.
  apply (inj (String.app "Well_")) in H. apply (inj pretty) in H. exact H.
Qed.

Lemma wells_of_cons (tbl : Z -> DataFrame) (x : Z) (xs : list Z)
    (acc : gmap string DataFrame) :
  wells_of tbl (x :: xs) acc = wells_of tbl xs (<[well_key x := tbl x]> acc).
Proof. reflexivity. Qed.



Lemma wells_of_dom (tbl : Z -> DataFrame) (xs : list Z)
    (acc : gmap string DataFrame) :
  dom (wells_of tbl xs acc) = dom acc ∪ list_to_set (well_key <$> xs).
Proof.
  revert acc. induction xs as [|x xs IH]; intros acc.
  - simpl. set_solver.
  - rewrite wells_of_cons, IH, dom_insert_L. set_solver.
Qed.

Lemma wells_of_size (tbl : Z -> DataFrame) (xs : list Z) :
  NoDup xs -> size (wells_of tbl xs ∅) = length xs.
Proof.
  intros Hnd. rewrite <- size_dom, wells_of_dom, dom_empty_L, (left_id_L ∅ (∪)).
  rewrite size_list_to_set by (apply NoDup_fmap; [apply _ | exact Hnd]).
  apply length_fmap.
Qed.

Section SeededRuns.

Local Open Scope R_scope.
Local Open Scope array_scope.

Variable legacy_gauss : rng_state -> R * rng_state.

Lemma seed_then_generate (self : NMRDataGenerator) (seed : Z)
    (st : rng_state) :
  (0 <= n_samples self)%Z -> valid_seed seed ->
  (np_random_seed seed;; generate_nmr_permeability_data legacy_gauss self) st
  = Ok (seeded_table legacy_gauss (n_samples self) seed,
        stream_after (draws_of_run legacy_gauss (Z.to_nat (n_samples self))
                                   (mt19937_seed seed))).
Proof.
  intros Hn Hseed.
  erewrite bind_Ok by (apply np_random_seed_Ok; exact Hseed).
  destruct (generate_run legacy_gauss self (mt19937_seed seed) Hn)
    as (depth & Hdepth & _ & ->).
  unfold seeded_table. rewrite Hdepth. reflexivity.
Qed.

Lemma generate_dataset_run (sample_count seed : Z) (st : rng_state) :
  (0 <= sample_count)%Z -> valid_seed seed ->
  generate_dataset legacy_gauss sample_count seed st
  = Ok (seeded_table legacy_gauss sample_count seed,
        stream_after (draws_of_run legacy_gauss (Z.to_nat sample_count)
                                   (mt19937_seed seed))).
Proof.
  intros Hn Hseed. unfold generate_dataset, __init__.
  erewrite bind_Ok; cycle 1.
  { erewrite bind_Ok by (apply np_random_seed_Ok; exact Hseed). reflexivity. }
  destruct (generate_run legacy_gauss {| n_samples := sample_count |}
              (mt19937_seed seed) Hn) as (depth & Hdepth & _ & ->).
  simpl in Hdepth. unfold seeded_table. rewrite Hdepth. reflexivity.
Qed.


Lemma seed_loop (self : NMRDataGenerator) (xs : list Z)
    (acc : gmap string DataFrame) (st : rng_state) :
  (0 <= n_samples self)%Z ->
  Forall (fun i => valid_seed (42 + i)) xs ->
  exists st',
    for_each xs (fun i (wells : gmap string DataFrame) =>
      np_random_seed (42 + i);;
      well_data ← generate_nmr_permeability_data legacy_gauss self;
      mret (<[("Well_" +:+ pretty i)%string := well_data]> wells)) acc st
    = Ok (wells_of (fun i => seeded_table legacy_gauss (n_samples self) (42 + i)) xs acc,
          st').
Proof.
  intros Hn Hxs. revert acc st.
  induction Hxs as [|x xs Hx Hxs IH]; intros acc st.
  - exists st. reflexivity.
  - cbn [for_each]. rewrite wells_of_cons.
    erewrite bind_Ok; [apply IH|].
    erewrite bind_Ok by (apply np_random_seed_Ok; exact Hx).
    destruct (generate_run legacy_gauss self (mt19937_seed (42 + x)) Hn)
      as (depth & Hdepth & _ & Hgen).
    erewrite bind_Ok by exact Hgen.
    unfold seeded_table. rewrite Hdepth. reflexivity.
Qed.

(** Whatever the stream was, the wells are the same: the loop reseeds
    before it draws. *)
Lemma generate_well_data_any_state (self : NMRDataGenerator) (n_wells : Z)
    (st1 st2 : rng_state) :
  eval (generate_well_data legacy_gauss self n_wells) st1
  = eval (generate_well_data legacy_gauss self n_wells) st2.
Proof.
  unfold generate_well_data, range_from_1.
  destruct (seqZ 1 n_wells) as [|i rest]; reflexivity.
Qed.

End SeededRuns.

Lemma eval_bind_Ok {A B} (m : M A) (f : A -> M B) (st st' : rng_state) (a : A) :
  m st = Ok (a, st') -> eval (m ≫= f) st = eval (f a) st'.
Proof. intros H. unfold eval. rewrite (bind_Ok _ _ _ _ _ H). reflexivity. Qed.

Lemma init_Ok (sample_count seed : Z) (st : rng_state) :
  valid_seed seed ->
  __init__ sample_count seed st
  = Ok ({| n_samples := sample_count |}, mt19937_seed seed).
Proof.
  intros H. unfold __init__.
  erewrite bind_Ok by (apply np_random_seed_Ok; exact H). reflexivity.
Qed.

Lemma init_Raise (sample_count seed : Z) (st : rng_state) :
  ~ valid_seed seed ->
  __init__ sample_count seed st
  = Raise (ValueError "Seed must be between 0 and 2**32 - 1").
Proof.
  intros H. unfold __init__. apply bind_Raise, np_random_seed_Raise, H.
Qed.



Example first_double_seed_44 :
  fst (mt19937_next_double_bits (mt19937_seed 44)) = 7519589579287606.
Proof. vm_compute. reflexivity. Qed.

Example first_double_seed_45 :
  fst (mt19937_next_double_bits (mt19937_seed 45)) = 8908223767107686.
Proof. vm_compute. reflexivity. Qed.







(** ** Several wells *)

Lemma generate_multi_well_dataset_run
    (legacy_gauss : rng_state -> R * rng_state)
    (sample_count random_seed well_count : Z) (st : rng_state) :
  0 <= sample_count -> valid_seed random_seed ->
  well_count <= 4294967253 ->
  exists st',
    generate_multi_well_dataset legacy_gauss sample_count random_seed
      well_count st
    = Ok (wells_of (fun i => seeded_table legacy_gauss sample_count (42 + i))
                   (seqZ 1 well_count) ∅, st').
Proof.
  intros Hn Hseed Hk. unfold generate_multi_well_dataset.
  erewrite bind_Ok by (apply init_Ok; exact Hseed).
  unfold generate_well_data, range_from_1.
  apply (seed_loop legacy_gauss {| n_samples := sample_count |});
    [exact Hn|].
  apply Forall_forall. intros i Hi. apply elem_of_seqZ in Hi.
  unfold valid_seed. lia.
Qed.

(** C10. The wells do not depend on the seed the generator was
    constructed with: two generators with the same sample count and any
    two (accepted) seeds give the same outcome of [generate_well_data],
    from any two states of the stream; for up to 4294967253 wells that
    outcome is the map built from the seeds [42 + i] alone. *)
Theorem wells_ignore_constructor_seed
    (legacy_gauss : rng_state -> R * rng_state)
    (sample_count seed1 seed2 n_wells : Z) (st1 st2 : rng_state) :
  valid_seed seed1 -> valid_seed seed2 ->
  eval (generate_multi_well_dataset legacy_gauss sample_count seed1 n_wells) st1
  = eval (generate_multi_well_dataset legacy_gauss sample_count seed2 n_wells) st2
  /\
  (0 <= sample_count -> n_wells <= 4294967253 ->
   eval (generate_multi_well_dataset legacy_gauss sample_count seed1 n_wells) st1
   = Ok (wells_of (fun i => seeded_table legacy_gauss sample_count (42 + i))
                  (seqZ 1 n_wells) ∅)).
Proof.
  intros H1 H2. split.
  - unfold generate_multi_well_dataset.
    rewrite (eval_bind_Ok _ _ _ _ _ (init_Ok sample_count seed1 st1 H1)).
    rewrite (eval_bind_Ok _ _ _ _ _ (init_Ok sample_count seed2 st2 H2)).
    apply generate_well_data_any_state.
  - intros Hn Hk.
    destruct (generate_multi_well_dataset_run legacy_gauss sample_count seed1
                n_wells st1 Hn H1 Hk) as (st' & Hrun).
    unfold eval. rewrite Hrun. reflexivity.
Qed.

Lemma wells_ignore_constructor_seed_witness :
  eval (generate_multi_well_dataset polar_gauss 5 42 3) stream_42
  = eval (generate_multi_well_dataset polar_gauss 5 7 3) (mt19937_seed 0)
  /\
  (0 <= 5 -> 3 <= 4294967253 ->
   eval (generate_multi_well_dataset polar_gauss 5 42 3) stream_42
   = Ok (wells_of (fun i => seeded_table polar_gauss 5 (42 + i))
                  (seqZ 1 3) ∅)).
Proof.
  apply (wells_ignore_constructor_seed polar_gauss 5 42 7 3 stream_42
           (mt19937_seed 0));
    unfold valid_seed; lia.
Defined.

(** The loop of [generate_well_data], well by well.  It returns when
    every well's own generation (reseed with [42 + i], then generate)
    returns, and then holds those tables; it raises what the first
    failing well's generation raises. *)
Lemma well_loop (legacy_gauss : rng_state -> R * rng_state)
    (self : NMRDataGenerator) (xs : list Z) (acc : gmap string DataFrame)
    (st : rng_state) :
  match
    for_each xs (fun i (wells : gmap string DataFrame) =>
      np_random_seed (42 + i);;
      well_data ← generate_nmr_permeability_data legacy_gauss self;
      mret (<[("Well_" +:+ pretty i)%string := well_data]> wells)) acc st
  with
  | Ok (wells, _) =>
      wells = wells_of (fun i => seeded_table legacy_gauss (n_samples self)
                                              (42 + i)) xs acc /\
      forall i, i ∈ xs ->
        valid_seed (42 + i) /\ 0 <= n_samples self /\
        forall st',
          eval (generate_dataset legacy_gauss (n_samples self) (42 + i)) st'
          = Ok (seeded_table legacy_gauss (n_samples self) (42 + i))
  | Raise e =>
      exists i, i ∈ xs /\
        forall st',
          eval (generate_dataset legacy_gauss (n_samples self) (42 + i)) st'
          = Raise e
  end.
Proof.
  revert acc st. induction xs as [|x xs IH]; intros acc st.
  - cbn. split; [reflexivity|]. intros i Hi. inversion Hi.
  - cbn [for_each].
    destruct (decide (valid_seed (42 + x))) as [Hseed|Hseed].
    2: { erewrite bind_Raise
           by (apply bind_Raise, np_random_seed_Raise; exact Hseed).
         exists x. split; [apply list_elem_of_here|]. intros st'.
         unfold eval, generate_dataset.
         erewrite bind_Raise by (apply init_Raise; exact Hseed). reflexivity. }
    destruct (Z_lt_le_dec (n_samples self) 0) as [Hneg|Hnn].
    { erewrite bind_Raise.
      2: { erewrite bind_Ok by (apply np_random_seed_Ok; exact Hseed).
           apply bind_Raise, generate_raises, Hneg. }
      exists x. split; [apply list_elem_of_here|]. intros st'.
      unfold eval, generate_dataset.
      erewrite bind_Ok by (apply init_Ok; exact Hseed).
      rewrite generate_raises by exact Hneg. reflexivity. }
    destruct (generate_run legacy_gauss self (mt19937_seed (42 + x)) Hnn)
      as (depth & Hdepth & _ & Hgen).
    erewrite bind_Ok.
    2: { erewrite bind_Ok by (apply np_random_seed_Ok; exact Hseed).
         erewrite bind_Ok by exact Hgen.
         unfold mret, M_ret. reflexivity. }
    match goal with |- context [for_each xs ?body ?a ?s'] =>
      specialize (IH a s'); destruct (for_each xs body a s') as [[wells st1]|e]
    end.
    + destruct IH as [-> IH]. split.
      * rewrite wells_of_cons. cbv beta. unfold well_key. do 2 f_equal.
        unfold seeded_table. rewrite Hdepth. reflexivity.
      * intros i Hi. apply elem_of_cons in Hi as [->|Hi]; [|apply IH, Hi].
        split; [exact Hseed|]. split; [exact Hnn|]. intros st'.
        unfold eval. rewrite generate_dataset_run by assumption. reflexivity.
    + destruct IH as (i & Hi & IH). exists i.
      split; [apply list_elem_of_further, Hi | exact IH].
Qed.








(** ** The T2 distribution *)

Lemma raw_amplitudes_length (t2_times : list R) :
  length (raw_amplitudes t2_times) = length t2_times.
Proof.
  unfold raw_amplitudes, arr_add, scal_mul, np_exp, np_log.
  rewrite length_zip_with, !length_fmap. lia.
Qed.

Lemma raw_amplitudes_pos (t2_times : list R) :
  Forall (fun a => 0 < a)%R (raw_amplitudes t2_times).
Proof.
  induction t2_times as [|t ts IH]; [constructor|].
  unfold raw_amplitudes, arr_add, scal_mul, np_exp, np_log in *. simpl.
  constructor; [|exact IH].
  match goal with
  | |- (0 < 0.3 * exp ?a + 0.7 * exp ?b)%R =>
      pose proof (exp_pos a); pose proof (exp_pos b); lra
  end.
Qed.

Lemma foldl_Rmax_ge (x : R) (xs : list R) :
  (x <= foldl Rmax x xs)%R /\ Forall (fun v => v <= foldl Rmax x xs)%R xs.
Proof.
  revert x. induction xs as [|y ys IH]; intros x; simpl.
  - split; [lra | constructor].
  - destruct (IH (Rmax x y)) as [H1 H2].
    pose proof (Rmax_l x y). pose proof (Rmax_r x y).
    split; [lra|]. constructor; [lra | exact H2].
Qed.

Lemma foldl_Rmax_scale (c x : R) (xs : list R) :
  (0 < c)%R ->
  foldl Rmax (x / c)%R ((fun a => a / c)%R <$> xs) = (foldl Rmax x xs / c)%R.
Proof.
  intros Hc. revert x. induction xs as [|y ys IH]; intros x; simpl; [reflexivity|].
  rewrite <- IH. f_equal.
  assert (Hinv : (0 < / c)%R) by (apply Rinv_0_lt_compat; exact Hc).
  unfold Rmax, Rdiv.
  destruct (Rle_dec (x * / c) (y * / c)); destruct (Rle_dec x y);
    try reflexivity; exfalso; nra.
Qed.

Lemma np_max_pos (a : list R) (peak : R) :
  Forall (fun v => 0 < v)%R a -> np_max a = Ok peak -> (0 < peak)%R.
Proof.
  destruct a as [|x xs]; [discriminate|]. simpl.
  intros Ha [= <-]. apply Forall_cons_1 in Ha as [Hx _].
  pose proof (proj1 (foldl_Rmax_ge x xs)). lra.
Qed.

(** Dividing by the maximum makes the maximum exactly 1. *)
Lemma np_max_normalised (a : list R) (peak : R) :
  Forall (fun v => 0 < v)%R a -> np_max a = Ok peak ->
  np_max ((fun v => v / peak)%R <$> a) = Ok 1%R.
Proof.
  intros Ha Hmax. pose proof (np_max_pos a peak Ha Hmax) as Hpos.
  destruct a as [|x xs]; [discriminate|]. simpl in *.
  injection Hmax as Hmax. rewrite foldl_Rmax_scale by exact Hpos.
  rewrite Hmax. f_equal. field. lra.
Qed.

Lemma np_logspace_Ok (start stop : R) (num : Z) (y : list R) :
  np_linspace start stop num = Ok y ->
  np_logspace start stop num = Ok (Rpower 10 <$> y).
Proof. intros H. unfold np_logspace. rewrite H. reflexivity. Qed.

Lemma generate_t2_distribution_run (self : NMRDataGenerator) (n_bins : Z) :
  1 <= n_bins ->
  exists y peak,
    np_linspace (-1) 4 n_bins = Ok y /\
    length y = Z.to_nat n_bins /\
    np_max (raw_amplitudes (Rpower 10 <$> y)) = Ok peak /\
    generate_t2_distribution self n_bins
    = Ok (Rpower 10 <$> y,
          (fun a => a / peak)%R <$> raw_amplitudes (Rpower 10 <$> y)).
Proof.
  intros Hn.
  destruct (np_linspace_length (-1) 4 n_bins ltac:(lia)) as (y & Hy & Hlen).
  assert (Hne : exists peak, np_max (raw_amplitudes (Rpower 10 <$> y)) = Ok peak).
  { pose proof (raw_amplitudes_length (Rpower 10 <$> y)) as Hl.
    rewrite length_fmap, Hlen in Hl.
    destruct (raw_amplitudes (Rpower 10 <$> y)) as [|a l]; simpl in Hl; [lia|].
    eexists. reflexivity. }
  destruct Hne as (peak & Hpeak).
  exists y, peak. repeat split; try assumption.
  unfold generate_t2_distribution.
  rewrite (np_logspace_Ok _ _ _ _ Hy). cbn [mbind result_bind].
  fold (raw_amplitudes (Rpower 10 <$> y)). rewrite Hpeak. reflexivity.
Qed.



(** C8. For at least two bins the amplitudes have maximum exactly 1 and
    the times are strictly increasing, the first 0.1 ms and the last
    10000 ms. *)
Theorem t2_distribution_normalised (self : NMRDataGenerator) (n_bins : Z) :
  2 <= n_bins ->
  yields (generate_t2_distribution self n_bins) (fun '(t2_times, amplitudes) =>
    np_max amplitudes = Ok 1%R /\
    strictly_increasing t2_times /\
    t2_times !! 0%nat = Some 0.1%R /\
    t2_times !! Z.to_nat (n_bins - 1) = Some 10000%R).
Proof.
  intros Hn.
  destruct (generate_t2_distribution_run self n_bins ltac:(lia))
    as (y & peak & Hy & Hlen & Hpeak & ->).
  cbv beta iota delta [yields].
  destruct (np_linspace_increasing (-1) 4 n_bins y Hn ltac:(lra) Hy)
    as (Hinc & _ & Hfirst & Hlast).
  repeat split.
  - apply np_max_normalised; [apply raw_amplitudes_pos | exact Hpeak].
  - intros i j x x' Hi Hj Hij.
    rewrite list_lookup_fmap in Hi, Hj.
    destruct (y !! i) as [a|] eqn:Ha; [|discriminate].
    destruct (y !! j) as [b|] eqn:Hb; [|discriminate].
    injection Hi as <-. injection Hj as <-.
    apply Rpower_lt; [lra|]. exact (Hinc i j a b Ha Hb Hij).
  - rewrite list_lookup_fmap, Hfirst. simpl. f_equal.
    replace (-1)%R with (- (1))%R by lra.
    rewrite Rpower_Ropp, Rpower_1 by lra. lra.
  - rewrite list_lookup_fmap, Hlast. simpl. f_equal.
    replace 4%R with (INR 4) by (simpl; lra).
    rewrite Rpower_pow by lra. simpl. lra.
Qed.

Lemma t2_distribution_normalised_witness :
  yields (generate_t2_distribution three_samples 50) (fun '(t2_times, amplitudes) =>
    np_max amplitudes = Ok 1%R /\
    strictly_increasing t2_times /\
    t2_times !! 0%nat = Some 0.1%R /\
    t2_times !! 49%nat = Some 10000%R).
Proof.
  apply (t2_distribution_normalised three_samples 50). lia.
Defined.

(** ** Model statistics *)

Lemma empty_frame_is_generated (legacy_gauss : rng_state -> R * rng_state)
    (st : rng_state) :
  generate_nmr_permeability_data legacy_gauss {| n_samples := 0 |} st
  = Ok (empty_frame, st).
Proof. reflexivity. Qed.

(** *** Infinities and NaN *)

Lemma f64_signed_inf_pos (x : R) : (0 < x)%R -> f64_signed_inf x = PInf.
Proof. intros H. unfold f64_signed_inf. destruct (Rlt_dec 0 x); [reflexivity | lra]. Qed.

Lemma f64_signed_inf_neg (x : R) : (x < 0)%R -> f64_signed_inf x = NInf.
Proof.
  intros H. unfold f64_signed_inf.
  destruct (Rlt_dec 0 x); [lra|]. destruct (Rlt_dec x 0); [reflexivity | lra].
Qed.

Lemma f64_signed_inf_zero : f64_signed_inf 0 = NaN.
Proof.
  unfold f64_signed_inf.
  destruct (Rlt_dec 0 0); [lra|]. destruct (Rlt_dec 0 0); [lra | reflexivity].
Qed.

Lemma f64_div_by_zero (x : R) : f64_div (Fin x) (Fin 0) = f64_signed_inf x.
Proof. cbn. destruct (Req_dec_T 0 0); [reflexivity | congruence]. Qed.

Lemma f64_div_Fin (x y : R) :
  y <> 0%R -> f64_div (Fin x) (Fin y) = Fin (x / y).
Proof. intros H. cbn. destruct (Req_dec_T y 0); [contradiction | reflexivity]. Qed.

Lemma f64_log10_pos (x : R) :
  (0 < x)%R -> f64_log10 (Fin x) = Fin (ln x / ln 10).
Proof. intros H. cbn. destruct (Rlt_dec 0 x); [reflexivity | lra]. Qed.

Lemma f64_log10_zero : f64_log10 (Fin 0) = NInf.
Proof.
  cbn. destruct (Rlt_dec 0 0); [lra|]. destruct (Rlt_dec 0 0); [lra | reflexivity].
Qed.

Lemma f64_sqrt_Fin (x : R) : (0 <= x)%R -> f64_sqrt (Fin x) = Fin (sqrt x).
Proof. intros H. cbn. destruct (Rlt_dec x 0); [lra | reflexivity]. Qed.

(** A sum of finite values and [+inf] is [+inf] as soon as one term is. *)
Lemma f64_sum_inf (l : list float64) :
  Forall (fun a => a <> NInf /\ a <> NaN) l ->
  (f64_sum l <> NInf /\ f64_sum l <> NaN) /\
  (PInf ∈ l -> f64_sum l = PInf).
Proof.
  induction 1 as [|a l [Ha1 Ha2] Hl [[IH1 IH2] IH3]].
  - split; [split; discriminate|]. intros H. inversion H.
  - change (f64_sum (a :: l)) with (f64_add a (f64_sum l)).
    destruct a as [x| | |]; try congruence;
      destruct (f64_sum l) as [y| | |] eqn:Hs; try congruence; cbn;
      (split; [split; discriminate|]); intros Hin; try reflexivity.
    apply elem_of_cons in Hin as [Hin|Hin]; [discriminate|].
    specialize (IH3 Hin). discriminate.
Qed.

(** [Series.mean()] of values none of which is [-inf] is [+inf] as soon
    as one of them is: NaN entries are left out. *)
Lemma np_mean_inf (l : list float64) :
  Forall (fun a => a <> NInf) l -> PInf ∈ l -> np_mean l = PInf.
Proof.
  intros Hl Hin. unfold np_mean.
  set (kept := List.filter (fun x => negb (is_nan x)) l).
  assert (Hkept : Forall (fun a => a <> NInf /\ a <> NaN) kept).
  { apply Forall_forall. intros a Ha. apply list_elem_of_In in Ha.
    apply filter_In in Ha as [Ha Hnan]. split.
    - apply (proj1 (Forall_forall _ _) Hl). apply list_elem_of_In, Ha.
    - intros ->. discriminate. }
  assert (Hin' : PInf ∈ kept).
  { apply list_elem_of_In, filter_In. split; [apply list_elem_of_In, Hin|].
    reflexivity. }
  destruct (f64_sum_inf kept Hkept) as [_ Hsum]. specialize (Hsum Hin').
  destruct kept as [|a kept']; [inversion Hin'|].
  rewrite Hsum. cbn [f64_div].
  destruct (Rlt_dec (INR (length (a :: kept'))) 0) as [Hneg|_]; [|reflexivity].
  pose proof (pos_INR (length (a :: kept'))). lra.
Qed.

(** *** What [calculate_statistics] returns *)

Lemma calculate_statistics_run (self : NMRDataGenerator) (data : DataFrame) :
  calculate_statistics self data
  = Ok (<["SDR"%string :=
            model_statistics (Core_Permeability_mD data)
                             (SDR_Permeability_mD data)]>
        (<["Timur_Coates"%string :=
            model_statistics (Core_Permeability_mD data)
                             (Timur_Coates_Permeability_mD data)]>
         (<["Coates"%string :=
            model_statistics (Core_Permeability_mD data)
                             (Coates_Permeability_mD data)]> ∅)),
        data).
Proof. reflexivity. Qed.

(** Every entry of the statistics map belongs to one of the three
    models and was computed from that model's column. *)
Lemma calculate_statistics_entries (self : NMRDataGenerator)
    (data : DataFrame) (model : string) (s : ModelStatistics) :
  yields (calculate_statistics self data) (fun '(stats, _) =>
    stats !! model = Some s ->
    exists pred,
      getitem data (model +:+ "_Permeability_mD")%string = Ok pred /\
      s = model_statistics (Core_Permeability_mD data) pred /\
      (pred = Coates_Permeability_mD data \/
       pred = Timur_Coates_Permeability_mD data \/
       pred = SDR_Permeability_mD data)).
Proof.
  rewrite calculate_statistics_run. cbv beta iota delta [yields].
  intros Hs.
  destruct (decide (model = "SDR"%string)) as [->|H1].
  { rewrite lookup_insert_eq in Hs. injection Hs as <-. eexists.
    split; [reflexivity|]. auto. }
  rewrite lookup_insert_ne in Hs by congruence.
  destruct (decide (model = "Timur_Coates"%string)) as [->|H2].
  { rewrite lookup_insert_eq in Hs. injection Hs as <-. eexists.
    split; [reflexivity|]. auto. }
  rewrite lookup_insert_ne in Hs by congruence.
  destruct (decide (model = "Coates"%string)) as [->|H3].
  { rewrite lookup_insert_eq in Hs. injection Hs as <-. eexists.
    split; [reflexivity|]. auto. }
  rewrite lookup_insert_ne in Hs by congruence.
  rewrite lookup_empty in Hs. discriminate.
Qed.

(** On two empty columns every metric is NaN: the mean of no value, and
    a covariance [0 * (1 / 0)]. *)
Lemma model_statistics_empty :
  model_statistics [] []
  = {| correlation := NaN; rmse_log := NaN; mape := NaN |}.
Proof.
  unfold model_statistics. cbn [fmap list_fmap].
  assert (Hcov : np_cov [] [] = NaN).
  { unfold np_cov. cbn [length Nat.leb fmap list_fmap ser_mul zip_with f64_sum
                        foldr].
    rewrite f64_div_by_zero, f64_signed_inf_pos by lra.
    cbn [f64_mul]. apply f64_signed_inf_zero. }
  unfold np_corrcoef_0_1. cbn [np_log10 fmap list_fmap].
  rewrite Hcov. reflexivity.
Qed.

(** Where the core permeability is zero and the model's prediction is
    positive, the log-space error is [-inf] and the relative error is a
    division of a negative number by zero: both means are [+inf]. *)
Lemma model_statistics_zero_core (core pred : list R) (i : nat) (p : R) :
  core !! i = Some 0%R -> pred !! i = Some p -> (0 < p)%R ->
  rmse_log (model_statistics core pred) = PInf /\
  mape (model_statistics core pred) = PInf.
Proof.
  intros Hc Hp Hpos. cbn [model_statistics rmse_log mape]. split.
  - rewrite np_mean_inf; [reflexivity| |].
    + unfold ser_square. apply Forall_fmap, Forall_forall.
      intros [x| | |] _; cbn; discriminate.
    + apply list_elem_of_lookup. exists i.
      unfold ser_square, ser_sub, np_log10.
      rewrite list_lookup_fmap, lookup_zip_with, !list_lookup_fmap, Hc, Hp.
      cbn [fmap option_fmap option_map mbind option_bind].
      rewrite f64_log10_zero, f64_log10_pos by exact Hpos. reflexivity.
  - rewrite np_mean_inf; [cbn; apply f64_signed_inf_pos; lra| |].
    + unfold np_abs. apply Forall_fmap, Forall_forall.
      intros [x| | |] _; cbn; discriminate.
    + apply list_elem_of_lookup. exists i.
      unfold np_abs, ser_div, ser_sub.
      rewrite list_lookup_fmap, !lookup_zip_with, !list_lookup_fmap, Hc, Hp.
      cbn [fmap option_fmap option_map mbind option_bind f64_sub f64_opp
           f64_add].
      rewrite f64_div_by_zero, f64_signed_inf_neg by lra. reflexivity.
Qed.

(** C3 (as amended). [calculate_statistics] raises on no table: for
    every table, the empty one and those with a zero core permeability
    included, it returns the map with exactly the three models
    [Coates], [Timur_Coates] and [SDR], each with the metrics of its
    own column against the core column, and the table is after the
    call what it was before.  On the empty table every metric is NaN;
    where a core permeability is zero and the model predicts a positive
    one, that model's log-space RMSE and MAPE are [+inf]. *)
Theorem statistics_never_raise (self : NMRDataGenerator) (data : DataFrame) :
  exists stats : gmap string ModelStatistics,
    calculate_statistics self data = Ok (stats, data) /\
    dom stats = {[ "Coates"; "Timur_Coates"; "SDR" ]}%string /\
    forall model s, stats !! model = Some s ->
      exists pred,
        getitem data (model +:+ "_Permeability_mD")%string = Ok pred /\
        s = model_statistics (Core_Permeability_mD data) pred /\
        (has_rows 0 data ->
         correlation s = NaN /\ rmse_log s = NaN /\ mape s = NaN) /\
        (forall i p,
           Core_Permeability_mD data !! i = Some 0%R ->
           pred !! i = Some p -> (0 < p)%R ->
           rmse_log s = PInf /\ mape s = PInf).
Proof.
  pose proof (fun model s => calculate_statistics_entries self data model s)
    as Hentries.
  rewrite calculate_statistics_run in Hentries.
  cbv beta iota delta [yields] in Hentries.
  eexists. split; [apply calculate_statistics_run|].
  split; [rewrite !dom_insert_L, dom_empty_L; set_solver|].
  intros model s Hs.
  destruct (Hentries model s Hs) as (pred & Hcol & -> & Hpred).
  exists pred. split; [exact Hcol|]. split; [reflexivity|]. split.
  - intros Hrows. unfold has_rows, columns in Hrows.
    rewrite !Forall_cons in Hrows. cbn [snd] in Hrows.
    destruct Hrows as (_ & _ & _ & _ & _ & _ & Lk & Lc & Lt & Ls & _).
    apply nil_length_inv in Lk.
    assert (pred = []) as ->
      by (destruct Hpred as [-> | [-> | ->]]; apply nil_length_inv; assumption).
    rewrite Lk, model_statistics_empty. auto.
  - intros i p Hc Hp Hpos.
    exact (model_statistics_zero_core _ _ i p Hc Hp Hpos).
Qed.

(** C3 (as stated) fails on the empty dataset: it has no row, and
    [calculate_statistics] does not raise on it. *)
Lemma statistics_of_empty_dataset :
  ~ (raises (calculate_statistics three_samples empty_frame) <->
     n_rows empty_frame = 0%nat \/ 0%R ∈ Core_Permeability_mD empty_frame).
Proof.
  intros [_ H]. apply H. left. reflexivity.
Qed.

(** Nor does it raise on a dataset with a zero core permeability. *)
Lemma statistics_of_zero_core :
  0%R ∈ Core_Permeability_mD zero_core_frame /\
  succeeds (calculate_statistics three_samples zero_core_frame).
Proof. split; [apply list_elem_of_here | exact I]. Qed.

(** * Further properties of the generator *)

(** ** Outcome and ranges of one generation *)

(** X1. [generate_nmr_permeability_data] fails where its first NumPy
    call, the porosity draw [np.random.uniform(0.05, 0.35, n_samples)],
    fails, and with that call's exception: for a negative [n_samples]
    the [ValueError] "negative dimensions are not allowed", raised
    before anything is drawn.  When that draw returns, the method
    returns a table of [n_samples] complete rows. *)
Theorem generation_outcome (legacy_gauss : rng_state -> R * rng_state)
    (self : NMRDataGenerator) (st : rng_state) :
  match np_random_uniform 0.05 0.35 (n_samples self) st with
  | Raise e =>
      generate_nmr_permeability_data legacy_gauss self st = Raise e
  | Ok _ =>
      returns (generate_nmr_permeability_data legacy_gauss self st)
        (fun data =>
           has_rows (Z.to_nat (n_samples self)) data /\
           forall i, (i < Z.to_nat (n_samples self))%nat ->
                     is_Some (row data i))
  end /\
  (n_samples self < 0 ->
   generate_nmr_permeability_data legacy_gauss self st
   = Raise (ValueError "negative dimensions are not allowed")).
Proof.
  split; [|apply generate_raises].
  destruct (Z_lt_le_dec (n_samples self) 0) as [Hneg|Hnn].
  - rewrite np_random_uniform_Raise by exact Hneg.
    apply generate_raises, Hneg.
  - rewrite np_random_uniform_Ok by exact Hnn.
    destruct (generate_run legacy_gauss self st Hnn) as (depth & _ & Hlen & ->).
    pose proof (table_of_run_rows legacy_gauss _ st depth Hlen) as Hrows.
    cbv beta iota delta [returns].
    split; [exact Hrows|].
    intros i Hi. eapply has_rows_row; eassumption.
Qed.

Lemma generated_row (legacy_gauss : rng_state -> R * rng_state)
    (depth : list R) (n : nat) (st : rng_state) (i : nat) (s : Sample) :
  row (table_of_run depth (draws_of_run legacy_gauss n st)) i = Some s ->
  exists p f,
    (0.05 <= p < 0.35)%R /\ (0.2 <= f < 0.6)%R /\
    porosity s = p /\
    bound_fluid_volume s = (p * f)%R /\
    free_fluid_index s = (p - p * f)%R /\
    (10 <= t2_geometric_mean_ms s <= 1000)%R /\
    (0 <= clay_volume s < 0.3)%R.
Proof.
  intros Hrow.
  destruct (row_columns _ _ _ Hrow) as (_ & Hp & Ht & Hb & Hf & Hc & _).
  simpl in Hp, Ht, Hb, Hf, Hc. unfold arr_sub, arr_mul in Hb, Hf.
  apply lookup_zip_with_Some in Hb as (p & fr & Hb & Hp' & Hfr).
  apply lookup_zip_with_Some in Hf as (p' & b & Hf & Hp'' & Hb').
  rewrite Hp in Hp', Hp''. injection Hp' as <-. injection Hp'' as <-.
  apply lookup_zip_with_Some in Hb' as (p'' & fr' & Hb' & Hp' & Hfr').
  rewrite Hp in Hp'. injection Hp' as <-.
  rewrite Hfr in Hfr'. injection Hfr' as <-. subst b.
  exists (porosity s), fr.
  pose proof (Forall_lookup_1 _ _ _ _ (porosity_range legacy_gauss n st) Hp).
  pose proof (Forall_lookup_1 _ _ _ _ (fraction_range legacy_gauss n st) Hfr).
  pose proof (Forall_lookup_1 _ _ _ _
                (np_clip_range _ 10 1000 ltac:(lra)) Ht).
  assert (Hclay : Forall (fun c => 0 <= c < 0.3)%R
                    (u_clay (draws_of_run legacy_gauss n st))).
  { unfold draws_of_run. simpl. apply draws_Forall. intros st'.
    pose proof (random_uniform_range 0 (0.3 - 0) st'). lra. }
  pose proof (Forall_lookup_1 _ _ _ _ Hclay Hc).
  simpl in *. repeat split; try assumption; lra.
Qed.

(** X2. Every sample of a generated dataset has porosity in
    [0.05, 0.35), T2 geometric mean in [10, 1000], clay volume in
    [0, 0.3), bound fluid volume between 20% and 60% of the porosity
    (so at least 0.01: the divisions by BFV are never by zero), and a
    ratio FFI/BFV above 2/3 and at most 4. *)
Theorem sample_field_ranges (legacy_gauss : rng_state -> R * rng_state)
    (self : NMRDataGenerator) (st : rng_state) :
  0 <= n_samples self ->
  returns (generate_nmr_permeability_data legacy_gauss self st) (fun data =>
    forall i s, row data i = Some s ->
      (0.05 <= porosity s < 0.35)%R /\
      (10 <= t2_geometric_mean_ms s <= 1000)%R /\
      (0 <= clay_volume s < 0.3)%R /\
      (0.2 * porosity s <= bound_fluid_volume s < 0.6 * porosity s)%R /\
      (0.01 <= bound_fluid_volume s < 0.21)%R /\
      (2 * bound_fluid_volume s < 3 * free_fluid_index s)%R /\
      (free_fluid_index s <= 4 * bound_fluid_volume s)%R).
Proof.
  intros Hn.
  destruct (generate_run legacy_gauss self st Hn) as (depth & _ & Hlen & ->).
  cbv beta iota delta [returns]. intros i s Hrow.
  destruct (generated_row _ _ _ _ _ _ Hrow)
    as (p & f & Hp & Hf & -> & -> & -> & Ht & Hc).
  repeat split; try tauto; nra.
Qed.

Lemma sample_field_ranges_witness :
  returns (generate_nmr_permeability_data polar_gauss three_samples stream_42)
    (fun data =>
      forall i s, row data i = Some s ->
        (0.05 <= porosity s < 0.35)%R /\
        (10 <= t2_geometric_mean_ms s <= 1000)%R /\
        (0 <= clay_volume s < 0.3)%R /\
        (0.2 * porosity s <= bound_fluid_volume s < 0.6 * porosity s)%R /\
        (0.01 <= bound_fluid_volume s < 0.21)%R /\
        (2 * bound_fluid_volume s < 3 * free_fluid_index s)%R /\
        (free_fluid_index s <= 4 * bound_fluid_volume s)%R).
Proof.
  apply (sample_field_ranges polar_gauss three_samples stream_42).
  simpl. lia.
Defined.

(** ** The wells and the stream *)

Lemma for_each_app {A S : Type} (xs ys : list A) (body : A -> S -> M S)
    (s : S) (st : rng_state) :
  for_each (xs ++ ys) body s st
  = (s' ← for_each xs body s; for_each ys body s') st.
Proof.
  revert s st. induction xs as [|x xs IH]; intros s st; [reflexivity|].
  cbn [app for_each]. unfold mbind, M_bind.
  destruct (body x s st) as [[s1 st1]|e]; [|reflexivity].
  rewrite IH. reflexivity.
Qed.

Lemma generate_well_data_no_wells (legacy_gauss : rng_state -> R * rng_state)
    (self : NMRDataGenerator) (n_wells : Z) (st : rng_state) :
  n_wells <= 0 ->
  generate_well_data legacy_gauss self n_wells st = Ok (∅, st).
Proof.
  intros Hk. unfold generate_well_data, range_from_1.
  rewrite seqZ_nil by exact Hk. reflexivity.
Qed.

(** With at least one well the loop starts by reseeding, so nothing of
    the stream it was given is read. *)
Lemma generate_well_data_reseeds (legacy_gauss : rng_state -> R * rng_state)
    (self : NMRDataGenerator) (n_wells : Z) (st1 st2 : rng_state) :
  1 <= n_wells ->
  generate_well_data legacy_gauss self n_wells st1
  = generate_well_data legacy_gauss self n_wells st2.
Proof.
  intros Hk. unfold generate_well_data, range_from_1.
  rewrite seqZ_cons by lia. reflexivity.
Qed.

(** The stream [generate_well_data] leaves is the one the last well's
    draws left. *)
Lemma generate_well_data_stream (legacy_gauss : rng_state -> R * rng_state)
    (self : NMRDataGenerator) (n_wells : Z) (st : rng_state) :
  0 <= n_samples self -> 1 <= n_wells <= 4294967253 ->
  exists wells,
    generate_well_data legacy_gauss self n_wells st
    = Ok (wells,
          stream_after
            (draws_of_run legacy_gauss (Z.to_nat (n_samples self))
                          (mt19937_seed (42 + n_wells)))).
Proof.
  intros Hn Hk. unfold generate_well_data, range_from_1.
  assert (Hs : seqZ 1 n_wells = seqZ 1 (n_wells - 1) ++ [n_wells]).
  { replace n_wells with ((n_wells - 1) + 1) at 1 by lia.
    rewrite seqZ_app by lia. f_equal.
    rewrite seqZ_cons by lia. rewrite seqZ_nil by lia. f_equal. lia. }
  rewrite Hs, for_each_app.
  destruct (seed_loop legacy_gauss self (seqZ 1 (n_wells - 1)) ∅ st Hn)
    as (st' & Hloop).
  { apply Forall_forall. intros i Hi. apply elem_of_seqZ in Hi.
    unfold valid_seed. lia. }
  erewrite bind_Ok by exact Hloop.
  cbn [for_each].
  destruct (generate_run legacy_gauss self (mt19937_seed (42 + n_wells)) Hn)
    as (depth & _ & _ & Hgen).
  eexists.
  erewrite bind_Ok; [reflexivity|].
  erewrite bind_Ok by (apply np_random_seed_Ok; lia).
  erewrite bind_Ok by exact Hgen.
  reflexivity.
Qed.

(** X3. Once [generate_well_data] has generated at least one well, the
    next dataset the generator produces no longer depends on the seed
    it was constructed with, nor on the earlier state of the stream: it
    is drawn from the stream the last well (seed [42 + n_wells]) left. *)
Theorem dataset_after_wells (legacy_gauss : rng_state -> R * rng_state)
    (sample_count seed1 seed2 n_wells : Z) (st1 st2 : rng_state) :
  valid_seed seed1 -> valid_seed seed2 -> 1 <= n_wells ->
  eval (wells_then_dataset legacy_gauss sample_count seed1 n_wells) st1
  = eval (wells_then_dataset legacy_gauss sample_count seed2 n_wells) st2 /\
  (0 <= sample_count -> n_wells <= 4294967253 ->
   exists depth,
     np_linspace 2000 2500 sample_count = Ok depth /\
     eval (wells_then_dataset legacy_gauss sample_count seed1 n_wells) st1
     = Ok (table_of_run depth
             (draws_of_run legacy_gauss (Z.to_nat sample_count)
                (stream_after
                   (draws_of_run legacy_gauss (Z.to_nat sample_count)
                                 (mt19937_seed (42 + n_wells))))))).
Proof.
  intros H1 H2 Hk.
  set (g := {| n_samples := sample_count |}).
  assert (Hw1 : eval (wells_then_dataset legacy_gauss sample_count seed1 n_wells) st1
          = eval (_ ← generate_well_data legacy_gauss g n_wells;
                  generate_nmr_permeability_data legacy_gauss g)
                 (mt19937_seed seed1)).
  { unfold wells_then_dataset.
    rewrite (eval_bind_Ok _ _ _ _ _ (init_Ok sample_count seed1 st1 H1)).
    reflexivity. }
  assert (Hw2 : eval (wells_then_dataset legacy_gauss sample_count seed2 n_wells) st2
          = eval (_ ← generate_well_data legacy_gauss g n_wells;
                  generate_nmr_permeability_data legacy_gauss g)
                 (mt19937_seed seed2)).
  { unfold wells_then_dataset.
    rewrite (eval_bind_Ok _ _ _ _ _ (init_Ok sample_count seed2 st2 H2)).
    reflexivity. }
  split.
  - rewrite Hw1, Hw2. unfold eval, mbind, M_bind.
    rewrite (generate_well_data_reseeds legacy_gauss g n_wells
               (mt19937_seed seed1) (mt19937_seed seed2) Hk).
    reflexivity.
  - intros Hn HK. rewrite Hw1.
    destruct (generate_well_data_stream legacy_gauss g n_wells
                (mt19937_seed seed1) Hn ltac:(lia)) as (wells & Hwells).
    rewrite (eval_bind_Ok _ _ _ _ _ Hwells).
    destruct (generate_run legacy_gauss g
                (stream_after
                   (draws_of_run legacy_gauss (Z.to_nat (n_samples g))
                                 (mt19937_seed (42 + n_wells)))) Hn)
      as (depth & Hdepth & _ & Hgen).
    exists depth. split; [exact Hdepth|].
    unfold eval. cbv beta. rewrite Hgen. reflexivity.
Qed.

Lemma dataset_after_wells_witness :
  eval (wells_then_dataset polar_gauss 5 42 3) stream_42
  = eval (wells_then_dataset polar_gauss 5 7 3) (mt19937_seed 0) /\
  (0 <= 5 -> 3 <= 4294967253 ->
   exists depth,
     np_linspace 2000 2500 5 = Ok depth /\
     eval (wells_then_dataset polar_gauss 5 42 3) stream_42
     = Ok (table_of_run depth
             (draws_of_run polar_gauss (Z.to_nat 5)
                (stream_after
                   (draws_of_run polar_gauss (Z.to_nat 5)
                                 (mt19937_seed (42 + 3))))))).
Proof.
  apply (dataset_after_wells polar_gauss 5 42 7 3 stream_42 (mt19937_seed 0));
    unfold valid_seed; lia.
Defined.

(** X4. Without wells ([n_wells <= 0]) [generate_well_data] returns the
    empty dict and leaves the random stream untouched.  A dict it
    returns has exactly [n_wells] entries, which takes every seed
    [42 + i] to be one [np.random.seed] accepts
    ([n_wells <= 4294967253]) and, with at least one well, [n_samples]
    not to be negative.  When it raises, the exception is the one the
    generation of one of its wells (reseed with [42 + i], then generate)
    raises: the loop stops at the first failing well and nothing is
    returned. *)
Theorem well_data_outcome (legacy_gauss : rng_state -> R * rng_state)
    (self : NMRDataGenerator) (n_wells : Z) (st : rng_state) :
  (n_wells <= 0 ->
   generate_well_data legacy_gauss self n_wells st = Ok (∅, st)) /\
  match generate_well_data legacy_gauss self n_wells st with
  | Ok (wells, _) =>
      size wells = Z.to_nat n_wells /\
      n_wells <= 4294967253 /\
      (1 <= n_wells -> 0 <= n_samples self)
  | Raise e =>
      exists i, 1 <= i <= n_wells /\
        forall st',
          eval (generate_dataset legacy_gauss (n_samples self) (42 + i)) st'
          = Raise e
  end.
Proof.
  split; [apply generate_well_data_no_wells|].
  unfold generate_well_data, range_from_1.
  pose proof (well_loop legacy_gauss self (seqZ 1 n_wells) ∅ st) as Hloop.
  match type of Hloop with match ?r with _ => _ end =>
    destruct r as [[wells st1]|e]
  end.
  - destruct Hloop as [-> Hwells].
    split; [rewrite wells_of_size by apply NoDup_seqZ; apply length_seqZ|].
    destruct (Z_le_gt_dec n_wells 0) as [Hk0|Hk1]; [split; lia|].
    destruct (Hwells n_wells) as (Hseed & Hn & _).
    { apply elem_of_seqZ. lia. }
    unfold valid_seed in Hseed. split; [lia | intros _; exact Hn].
  - destruct Hloop as (i & Hi & Hraise). exists i.
    apply elem_of_seqZ in Hi. split; [lia | exact Hraise].
Qed.

Lemma wells_of_lookup_Some (tbl : Z -> DataFrame) (xs : list Z)
    (acc : gmap string DataFrame) (k : string) (d : DataFrame) :
  wells_of tbl xs acc !! k = Some d ->
  (exists i, i ∈ xs /\ k = well_key i /\ d = tbl i) \/ acc !! k = Some d.
Proof.
  revert acc. induction xs as [|x xs IH]; intros acc Hk; [right; exact Hk|].
  rewrite wells_of_cons in Hk. apply IH in Hk as [(i & Hi & -> & ->)|Hk].
  - left. exists i. split; [apply elem_of_cons; right; exact Hi | auto].
  - destruct (decide (well_key x = k)) as [<-|Hne].
    + rewrite lookup_insert_eq in Hk. injection Hk as <-.
      left. exists x. split; [apply elem_of_cons; left; reflexivity | auto].
    + rewrite lookup_insert_ne in Hk by exact Hne. right. exact Hk.
Qed.

Lemma seeded_table_rows (legacy_gauss : rng_state -> R * rng_state)
    (sample_count seed : Z) :
  0 <= sample_count ->
  has_rows (Z.to_nat sample_count)
           (seeded_table legacy_gauss sample_count seed).
Proof.
  intros Hn. unfold seeded_table.
  destruct (np_linspace_length 2000 2500 sample_count Hn) as (y & -> & Hlen).
  apply table_of_run_rows. exact Hlen.
Qed.

Lemma generated_row_permeabilities
    (legacy_gauss : rng_state -> R * rng_state)
    (depth : list R) (n : nat) (st : rng_state) (i : nat) (s : Sample) :
  row (table_of_run depth (draws_of_run legacy_gauss n st)) i = Some s ->
  (0.01 <= core_permeability_md s <= 10000)%R /\
  (0.01 <= coates_permeability_md s <= 10000)%R /\
  (0.01 <= timur_coates_permeability_md s <= 10000)%R /\
  (0.01 <= sdr_permeability_md s <= 10000)%R.
Proof.
  intros Hrow.
  destruct (row_columns _ _ _ Hrow)
    as (_ & _ & _ & _ & _ & _ & Hk & Hkc & Hkt & Hks).
  simpl in Hk, Hkc, Hkt, Hks.
  assert (Hc : forall a x, np_clip a 0.01 10000 !! i = Some x ->
                           (0.01 <= x <= 10000)%R).
  { intros a x Hx.
    apply (Forall_lookup_1 _ _ _ _ (np_clip_range a 0.01 10000 ltac:(lra)) Hx). }
  repeat split; eapply Hc; eassumption.
Qed.

(** X5. Every dataset [generate_well_data] returns is stored under a key
    [Well_i] with [1 <= i <= n_wells], has [n_samples] rows, and keeps
    the invariants of a single generation: bound fluid volume at most
    porosity, free fluid index not negative, the four permeabilities in
    [0.01, 10000]. *)
Theorem wells_keep_sample_invariants
    (legacy_gauss : rng_state -> R * rng_state)
    (self : NMRDataGenerator) (n_wells : Z) (st : rng_state) :
  0 <= n_samples self -> n_wells <= 4294967253 ->
  returns (generate_well_data legacy_gauss self n_wells st) (fun wells =>
    forall (k : string) (d : DataFrame), wells !! k = Some d ->
      (exists i, 1 <= i <= n_wells /\ k = ("Well_" +:+ pretty i)%string) /\
      has_rows (Z.to_nat (n_samples self)) d /\
      forall j s, row d j = Some s ->
        (bound_fluid_volume s <= porosity s)%R /\
        (0 <= free_fluid_index s)%R /\
        (0.01 <= core_permeability_md s <= 10000)%R /\
        (0.01 <= coates_permeability_md s <= 10000)%R /\
        (0.01 <= timur_coates_permeability_md s <= 10000)%R /\
        (0.01 <= sdr_permeability_md s <= 10000)%R).
Proof.
  intros Hn Hk. unfold generate_well_data, range_from_1.
  destruct (seed_loop legacy_gauss self (seqZ 1 n_wells) ∅ st Hn)
    as (st' & ->).
  { apply Forall_forall. intros i Hi. apply elem_of_seqZ in Hi.
    unfold valid_seed. lia. }
  cbv beta iota delta [returns]. intros k d Hlook.
  apply wells_of_lookup_Some in Hlook as [(i & Hi & -> & ->)|Hempty];
    [|rewrite lookup_empty in Hempty; discriminate].
  apply elem_of_seqZ in Hi.
  split; [exists i; split; [lia | reflexivity]|].
  split; [apply seeded_table_rows; exact Hn|].
  intros j s Hrow. unfold seeded_table in Hrow.
  destruct (generated_row _ _ _ _ _ _ Hrow)
    as (p & f & Hp & Hf & Hpor & Hbfv & Hffi & _).
  destruct (generated_row_permeabilities _ _ _ _ _ _ Hrow)
    as (H1 & H2 & H3 & H4).
  rewrite Hpor, Hbfv, Hffi.
  repeat split; try tauto; nra.
Qed.

Lemma wells_keep_sample_invariants_witness :
  returns (generate_well_data polar_gauss three_samples 3 stream_42)
    (fun wells =>
      forall (k : string) (d : DataFrame), wells !! k = Some d ->
        (exists i, 1 <= i <= 3 /\ k = ("Well_" +:+ pretty i)%string) /\
        has_rows 3 d /\
        forall j s, row d j = Some s ->
          (bound_fluid_volume s <= porosity s)%R /\
          (0 <= free_fluid_index s)%R /\
          (0.01 <= core_permeability_md s <= 10000)%R /\
          (0.01 <= coates_permeability_md s <= 10000)%R /\
          (0.01 <= timur_coates_permeability_md s <= 10000)%R /\
          (0.01 <= sdr_permeability_md s <= 10000)%R).
Proof.
  apply (wells_keep_sample_invariants polar_gauss three_samples 3 stream_42).
  - simpl. lia.
  - lia.
Defined.

(** ** More on the T2 distribution *)

Lemma Rpower_10_le (x y : R) : (x <= y)%R -> (Rpower 10 x <= Rpower 10 y)%R.
Proof.
  intros [Hlt| ->]; [|lra].
  left. apply Rpower_lt; lra.
Qed.

Lemma Rpower_10_m1 : Rpower 10 (-1) = 0.1%R.
Proof.
  replace (-1)%R with (- (1))%R by lra.
  rewrite Rpower_Ropp, Rpower_1 by lra. lra.
Qed.

Lemma Rpower_10_4 : Rpower 10 4 = 10000%R.
Proof.
  replace 4%R with (INR 4) by (simpl; lra).
  rewrite Rpower_pow by lra. simpl. lra.
Qed.

Lemma np_linspace_range (start stop : R) (num : Z) (y : list R) :
  (start <= stop)%R ->
  np_linspace start stop num = Ok y ->
  Forall (fun v => start <= v <= stop)%R y.
Proof.
  intros Hle Hy.
  destruct (Z_lt_le_dec num 2) as [Hsmall|Hbig].
  - unfold np_linspace in Hy.
    destruct (Z.ltb_spec num 0); [discriminate|].
    destruct (Z.ltb_spec 0 (num - 1)); [lia|].
    destruct (Z.ltb_spec 1 num); [lia|].
    injection Hy as <-.
    assert (Hnum : num = 0 \/ num = 1) by lia.
    destruct Hnum as [-> | ->]; simpl; [constructor|].
    constructor; [|constructor].
    change (Z.of_nat 0 + 0) with 0. lra.
  - destruct (np_linspace_lookup start stop num Hbig) as (y' & Hy' & Hlen & Hlook).
    rewrite Hy in Hy'. injection Hy' as <-.
    apply Forall_lookup. intros i v Hv.
    assert (Hi : Z.of_nat i < num) by (apply lookup_lt_Some in Hv; lia).
    rewrite Hlook in Hv by exact Hi. injection Hv as <-.
    assert (H0 : (0 <= IZR (Z.of_nat i))%R) by (apply IZR_le; lia).
    assert (H1 : (IZR (Z.of_nat i) <= IZR (num - 1))%R) by (apply IZR_le; lia).
    assert (Hpos : (0 < IZR (num - 1))%R) by (apply IZR_lt; lia).
    assert (Hq : (0 <= (stop - start) / IZR (num - 1))%R).
    { apply Rmult_le_pos; [lra|]. left. apply Rinv_0_lt_compat. exact Hpos. }
    assert (Hprod : ((stop - start) / IZR (num - 1) * IZR (num - 1)
                     = stop - start)%R) by (field; lra).
    split; nra.
Qed.

(** X6. For at least one bin, every amplitude lies in (0, 1], their
    maximum is exactly 1 (also for a single bin), and every time lies
    in [0.1, 10000] ms. *)
Theorem t2_distribution_ranges (self : NMRDataGenerator) (n_bins : Z) :
  1 <= n_bins ->
  yields (generate_t2_distribution self n_bins) (fun '(t2_times, amplitudes) =>
    np_max amplitudes = Ok 1%R /\
    Forall (fun a => 0 < a <= 1)%R amplitudes /\
    Forall (fun t => 0.1 <= t <= 10000)%R t2_times).
Proof.
  intros Hn.
  destruct (generate_t2_distribution_run self n_bins Hn)
    as (y & peak & Hy & Hlen & Hpeak & ->).
  cbv beta iota delta [yields].
  pose proof (raw_amplitudes_pos (Rpower 10 <$> y)) as Hraw.
  pose proof (np_max_pos _ _ Hraw Hpeak) as Hpos.
  split; [apply np_max_normalised; assumption|]. split.
  - apply Forall_fmap.
    assert (Hle : Forall (fun v => v <= peak)%R (raw_amplitudes (Rpower 10 <$> y))).
    { destruct (raw_amplitudes (Rpower 10 <$> y)) as [|x xs]; [constructor|].
      simpl in Hpeak. injection Hpeak as <-.
      destruct (foldl_Rmax_ge x xs) as [Hx Hxs]. constructor; assumption. }
    rewrite Forall_forall in Hraw, Hle. apply Forall_forall.
    intros a Ha. specialize (Hraw a Ha). specialize (Hle a Ha). simpl.
    split.
    + apply Rdiv_lt_0_compat; assumption.
    + apply Rmult_le_reg_r with peak; [exact Hpos|].
      unfold Rdiv. rewrite Rmult_assoc, Rinv_l by lra. lra.
  - apply Forall_fmap.
    pose proof (np_linspace_range (-1) 4 n_bins y ltac:(lra) Hy) as Hrange.
    rewrite Forall_forall in Hrange. apply Forall_forall.
    intros t Ht. specialize (Hrange t Ht). simpl.
    rewrite <- Rpower_10_m1, <- Rpower_10_4.
    split; apply Rpower_10_le; lra.
Qed.

Lemma t2_distribution_ranges_witness :
  yields (generate_t2_distribution three_samples 1) (fun '(t2_times, amplitudes) =>
    np_max amplitudes = Ok 1%R /\
    Forall (fun a => 0 < a <= 1)%R amplitudes /\
    Forall (fun t => 0.1 <= t <= 10000)%R t2_times).
Proof.
  apply (t2_distribution_ranges three_samples 1). lia.
Defined.

(** X7. For at least two bins the times are logarithmically spaced:
    each time is the previous one multiplied by the same factor
    [10 ^ (5 / (n_bins - 1))]. *)
Theorem t2_times_log_spaced (self : NMRDataGenerator) (n_bins : Z) :
  2 <= n_bins ->
  yields (generate_t2_distribution self n_bins) (fun '(t2_times, _) =>
    length t2_times = Z.to_nat n_bins /\
    forall i t t', t2_times !! i = Some t -> t2_times !! S i = Some t' ->
      t' = (t * Rpower 10 (5 / IZR (n_bins - 1)))%R).
Proof.
  intros Hn.
  destruct (generate_t2_distribution_run self n_bins ltac:(lia))
    as (y & peak & Hy & Hlen & Hpeak & ->).
  cbv beta iota delta [yields].
  split; [rewrite length_fmap; exact Hlen|].
  destruct (np_linspace_increasing (-1) 4 n_bins y Hn ltac:(lra) Hy)
    as (_ & Heven & _).
  intros i t t' Hi Hj. rewrite list_lookup_fmap in Hi, Hj.
  destruct (y !! i) as [a|] eqn:Ha; [|discriminate].
  destruct (y !! S i) as [b|] eqn:Hb; [|discriminate].
  injection Hi as <-. injection Hj as <-.
  specialize (Heven i a b Ha Hb).
  rewrite <- Rpower_plus. f_equal.
  replace (4 - -1)%R with 5%R in Heven by lra. lra.
Qed.

Lemma t2_times_log_spaced_witness :
  yields (generate_t2_distribution three_samples 50) (fun '(t2_times, _) =>
    length t2_times = 50%nat /\
    forall i t t', t2_times !! i = Some t -> t2_times !! S i = Some t' ->
      t' = (t * Rpower 10 (5 / 49))%R).
Proof.
  apply (t2_times_log_spaced three_samples 50). lia.
Defined.

(** ** More on the statistics *)

Lemma real_sum_bounds (a b : R) (l : list R) :
  Forall (fun x => a <= x <= b)%R l ->
  (INR (length l) * a <= real_sum l <= INR (length l) * b)%R.
Proof.
  induction 1 as [|x l Hx Hl IH].
  - simpl. lra.
  - change (real_sum (x :: l)) with (x + real_sum l)%R.
    change (length (x :: l)) with (S (length l)). rewrite S_INR. lra.
Qed.

Lemma real_mean_bounds (a b : R) (l : list R) :
  l <> [] -> Forall (fun x => a <= x <= b)%R l ->
  (a <= real_mean l <= b)%R.
Proof.
  intros Hne Hl. pose proof (real_sum_bounds a b l Hl) as [Hlo Hhi].
  assert (Hn : (0 < INR (length l))%R).
  { apply lt_0_INR. destruct l; [congruence | simpl; lia]. }
  unfold real_mean. split.
  - apply Rmult_le_reg_r with (INR (length l)); [exact Hn|].
    unfold Rdiv. rewrite Rmult_assoc, Rinv_l by lra. lra.
  - apply Rmult_le_reg_r with (INR (length l)); [exact Hn|].
    unfold Rdiv. rewrite Rmult_assoc, Rinv_l by lra. lra.
Qed.

Lemma log10_clamped (x : R) :
  (0.01 <= x <= 10000)%R -> (-2 <= ln x / ln 10 <= 4)%R.
Proof.
  intros [Hlo Hhi].
  assert (H10 : (0 < ln 10)%R).
  { rewrite <- ln_1. apply ln_increasing; lra. }
  assert (Hlow : (ln 0.01 = -2 * ln 10)%R).
  { replace 0.01%R with (/ (10 ^ 2))%R by (simpl; lra).
    rewrite ln_Rinv by (simpl; lra). rewrite ln_pow by lra. simpl. lra. }
  assert (Hhigh : (ln 10000 = 4 * ln 10)%R).
  { replace 10000%R with (10 ^ 4)%R by (simpl; lra).
    rewrite ln_pow by lra. simpl. lra. }
  assert (H1 : (ln 0.01 <= ln x)%R).
  { destruct Hlo as [Hlt| <-]; [left; apply ln_increasing; lra | lra]. }
  assert (H2 : (ln x <= ln 10000)%R).
  { destruct Hhi as [Hlt| ->]; [left; apply ln_increasing; lra | lra]. }
  split.
  - apply Rmult_le_reg_r with (ln 10); [exact H10|].
    unfold Rdiv. rewrite Rmult_assoc, Rinv_l by lra. lra.
  - apply Rmult_le_reg_r with (ln 10); [exact H10|].
    unfold Rdiv. rewrite Rmult_assoc, Rinv_l by lra. lra.
Qed.

(** For permeabilities inside the clamp, the log-space RMSE is at most
    6 decades and the MAPE at most 99999900 percent. *)
Lemma real_statistics_bounds (core pred : list R) :
  core <> [] -> length pred = length core ->
  Forall (fun x => 0.01 <= x <= 10000)%R core ->
  Forall (fun x => 0.01 <= x <= 10000)%R pred ->
  (0 <= real_rmse_log core pred <= 6)%R /\
  (0 <= real_mape core pred <= 99999900)%R.
Proof.
  intros Hne Hlen Hcore Hpred.
  assert (Hlc : (0 < length core)%nat) by (destruct core; [congruence | simpl; lia]).
  unfold real_rmse_log, real_mape. split.
  - assert (Hsq : (0 <= real_mean ((real_log10 core [-] real_log10 pred) [^] 2)%array
                   <= 36)%R).
    { apply real_mean_bounds.
      - intros Hnil. apply (f_equal length) in Hnil.
        unfold arr_pow, arr_sub, real_log10 in Hnil.
        rewrite length_fmap, length_zip_with, !length_fmap in Hnil.
        simpl in Hnil. lia.
      - apply Forall_lookup. intros i v Hv.
        unfold arr_pow, arr_sub, real_log10 in Hv.
        rewrite list_lookup_fmap in Hv.
        destruct (zip_with Rminus _ _ !! i) as [d|] eqn:Hd; [|discriminate].
        injection Hv as <-.
        apply lookup_zip_with_Some in Hd as (a & b & -> & Ha & Hb).
        rewrite list_lookup_fmap in Ha, Hb.
        destruct (core !! i) as [c|] eqn:Hc; [|discriminate].
        destruct (pred !! i) as [q|] eqn:Hq; [|discriminate].
        injection Ha as <-. injection Hb as <-.
        pose proof (log10_clamped c (Forall_lookup_1 _ _ _ _ Hcore Hc)).
        pose proof (log10_clamped q (Forall_lookup_1 _ _ _ _ Hpred Hq)).
        simpl. set (d := (ln c / ln 10 - ln q / ln 10)%R).
        assert (Hd : (-6 <= d <= 6)%R) by (unfold d; lra).
        clearbody d. nra. }
    split; [apply sqrt_pos|].
    replace 6%R with (sqrt (6 * 6)) by (apply sqrt_square; lra).
    apply sqrt_le_1_alt. lra.
  - assert (Hm : (0 <= real_mean (Rabs <$> ((core [-] pred) [/] core)%array)
                  <= 999999)%R).
    { apply real_mean_bounds.
      - intros Hnil. apply (f_equal length) in Hnil.
        unfold arr_div, arr_sub in Hnil.
        rewrite length_fmap, !length_zip_with in Hnil.
        simpl in Hnil. lia.
      - apply Forall_lookup. intros i v Hv.
        unfold arr_div, arr_sub in Hv.
        rewrite list_lookup_fmap in Hv.
        destruct (zip_with Rdiv _ _ !! i) as [d|] eqn:Hd; [|discriminate].
        injection Hv as <-.
        apply lookup_zip_with_Some in Hd as (a & c & -> & Ha & Hc).
        apply lookup_zip_with_Some in Ha as (c' & q & -> & Hc' & Hq).
        rewrite Hc in Hc'. injection Hc' as <-.
        pose proof (Forall_lookup_1 _ _ _ _ Hcore Hc) as [Hc1 Hc2].
        pose proof (Forall_lookup_1 _ _ _ _ Hpred Hq) as [Hq1 Hq2].
        simpl in Hc1, Hc2, Hq1, Hq2.
        split; [apply Rabs_pos|].
        assert (Hinv : (0 < / c)%R) by (apply Rinv_0_lt_compat; lra).
        assert (Hinv2 : (/ c <= 100)%R).
        { apply Rmult_le_reg_r with c; [lra|].
          rewrite Rinv_l by lra. lra. }
        unfold Rdiv. apply Rabs_le. split; nra. }
    lra.
Qed.

(** *** Where the floating-point statistics are finite

    On columns of positive values no logarithm and no division meets
    zero, and each floating-point operation gives the finite value of
    the real one. *)

Lemma np_log10_Fin (l : list R) :
  Forall (fun x => 0 < x)%R l -> np_log10 (Fin <$> l) = Fin <$> real_log10 l.
Proof.
  unfold np_log10, real_log10.
  induction 1 as [|x l Hx Hl IH]; [reflexivity|].
  rewrite !fmap_cons, f64_log10_pos by exact Hx. f_equal. exact IH.
Qed.

Lemma ser_sub_Fin (a b : list R) :
  ser_sub (Fin <$> a) (Fin <$> b) = Fin <$> (a [-] b)%array.
Proof.
  unfold ser_sub, arr_sub. revert b.
  induction a as [|x a IH]; intros [|y b]; try reflexivity.
  rewrite !fmap_cons. cbn [zip_with]. rewrite fmap_cons.
  f_equal. apply IH.
Qed.

Lemma ser_mul_Fin (a b : list R) :
  ser_mul (Fin <$> a) (Fin <$> b) = Fin <$> (a [*] b)%array.
Proof.
  unfold ser_mul, arr_mul. revert b.
  induction a as [|x a IH]; intros [|y b]; try reflexivity.
  rewrite !fmap_cons. cbn [zip_with]. rewrite fmap_cons.
  f_equal. apply IH.
Qed.

Lemma ser_div_Fin (a c : list R) :
  Forall (fun x => x <> 0%R) c ->
  ser_div (Fin <$> a) (Fin <$> c) = Fin <$> (a [/] c)%array.
Proof.
  unfold ser_div, arr_div. intros Hc. revert a.
  induction Hc as [|y c Hy Hc IH]; intros [|x a]; try reflexivity.
  rewrite !fmap_cons. cbn [zip_with]. rewrite fmap_cons.
  rewrite f64_div_Fin by exact Hy. f_equal. apply IH.
Qed.

Lemma ser_square_Fin (a : list R) :
  ser_square (Fin <$> a) = Fin <$> (a [^] 2)%array.
Proof.
  unfold ser_square, arr_pow.
  induction a as [|x a IH]; [reflexivity|].
  rewrite !fmap_cons. cbn [f64_mul]. f_equal; [|exact IH].
  f_equal. simpl. ring.
Qed.

Lemma np_abs_Fin (a : list R) : np_abs (Fin <$> a) = Fin <$> (Rabs <$> a).
Proof.
  unfold np_abs. induction a as [|x a IH]; [reflexivity|].
  rewrite !fmap_cons. f_equal. exact IH.
Qed.

Lemma sub_mean_Fin (m : R) (a : list R) :
  (fun v => f64_sub v (Fin m)) <$> (Fin <$> a)
  = Fin <$> ((fun v => v - m)%R <$> a).
Proof.
  induction a as [|x a IH]; [reflexivity|].
  rewrite !fmap_cons. f_equal. exact IH.
Qed.

Lemma filter_Fin (l : list R) :
  List.filter (fun x => negb (is_nan x)) (Fin <$> l) = Fin <$> l.
Proof.
  induction l as [|x l IH]; [reflexivity|].
  rewrite fmap_cons. cbn [List.filter is_nan negb]. f_equal. exact IH.
Qed.

Lemma f64_sum_Fin (l : list R) : f64_sum (Fin <$> l) = Fin (real_sum l).
Proof.
  induction l as [|x l IH]; [reflexivity|].
  rewrite fmap_cons.
  change (f64_sum (Fin x :: (Fin <$> l))) with (f64_add (Fin x) (f64_sum (Fin <$> l))).
  rewrite IH. reflexivity.
Qed.

Lemma INR_length_nonzero {A} (l : list A) : l <> [] -> INR (length l) <> 0%R.
Proof.
  intros Hne. apply not_0_INR. destruct l; [congruence | discriminate].
Qed.

Lemma ndarray_mean_Fin (l : list R) :
  l <> [] -> ndarray_mean (Fin <$> l) = Fin (real_mean l).
Proof.
  intros Hne. unfold ndarray_mean, real_mean.
  rewrite f64_sum_Fin, length_fmap.
  apply f64_div_Fin, INR_length_nonzero, Hne.
Qed.

Lemma np_mean_Fin (l : list R) :
  l <> [] -> np_mean (Fin <$> l) = Fin (real_mean l).
Proof.
  intros Hne. unfold np_mean. rewrite filter_Fin.
  destruct l as [|x l]; [congruence|].
  rewrite fmap_cons. cbv iota. rewrite <- fmap_cons.
  apply (ndarray_mean_Fin (x :: l) Hne).
Qed.

Lemma real_mean_nonneg (l : list R) :
  Forall (fun x => 0 <= x)%R l -> (0 <= real_mean l)%R.
Proof.
  intros Hl. assert (Hs : (0 <= real_sum l)%R).
  { induction Hl as [|x l Hx Hl IH]; [simpl; lra|].
    change (real_sum (x :: l)) with (x + real_sum l)%R. lra. }
  unfold real_mean, Rdiv. apply Rmult_le_pos; [exact Hs|].
  destruct l as [|x l]; [simpl; rewrite Rinv_0; lra|].
  left. apply Rinv_0_lt_compat, lt_0_INR. simpl. lia.
Qed.

Lemma np_cov_Fin (x y : list R) :
  (2 <= length x)%nat -> y <> [] ->
  np_cov (Fin <$> x) (Fin <$> y) = Fin (real_cov x y).
Proof.
  intros Hlen Hy. unfold np_cov, real_cov. rewrite length_fmap.
  assert (Hx : x <> []) by (destruct x; [simpl in Hlen; lia | discriminate]).
  rewrite (ndarray_mean_Fin x Hx), (ndarray_mean_Fin y Hy).
  rewrite !sub_mean_Fin, ser_mul_Fin, f64_sum_Fin.
  destruct (Nat.leb_spec (length x) 1) as [Hle|_]; [lia|].
  rewrite f64_div_Fin; [reflexivity|].
  assert (2 <= INR (length x))%R by (apply (le_INR 2); exact Hlen). lra.
Qed.

(** A positive variance takes at least two values. *)
Lemma real_cov_pos_length (x : list R) :
  (0 < real_cov x x)%R -> (2 <= length x)%nat.
Proof.
  intros Hv. destruct (Nat.leb_spec (length x) 1) as [Hle|Hgt]; [|lia].
  exfalso. unfold real_cov in Hv.
  destruct (Nat.leb_spec (length x) 1) as [_|Hgt]; [|lia].
  unfold Rdiv in Hv. rewrite Rinv_0 in Hv. lra.
Qed.

Lemma np_corrcoef_Fin (x y : list R) :
  length y = length x ->
  (0 < real_cov x x)%R -> (0 < real_cov y y)%R ->
  np_corrcoef_0_1 (Fin <$> x) (Fin <$> y) = Fin (real_corrcoef x y).
Proof.
  intros Hlen Hx Hy. unfold np_corrcoef_0_1, real_corrcoef.
  pose proof (real_cov_pos_length x Hx) as Hx2.
  pose proof (real_cov_pos_length y Hy) as Hy2.
  assert (Hxne : x <> []) by (destruct x; [simpl in Hx2; lia | discriminate]).
  assert (Hyne : y <> []) by (destruct y; [simpl in Hy2; lia | discriminate]).
  rewrite !np_cov_Fin by assumption.
  rewrite !f64_sqrt_Fin by lra.
  assert (0 < sqrt (real_cov x x))%R by (apply sqrt_lt_R0; exact Hx).
  assert (0 < sqrt (real_cov y y))%R by (apply sqrt_lt_R0; exact Hy).
  rewrite !f64_div_Fin by lra. reflexivity.
Qed.

(** The metrics of a non-empty column of positive predictions against
    positive core values are the finite ones. *)
Lemma model_statistics_finite (core pred : list R) :
  core <> [] -> length pred = length core ->
  Forall (fun x => 0 < x)%R core -> Forall (fun x => 0 < x)%R pred ->
  rmse_log (model_statistics core pred) = Fin (real_rmse_log core pred) /\
  mape (model_statistics core pred) = Fin (real_mape core pred) /\
  ((0 < real_cov (real_log10 core) (real_log10 core))%R ->
   (0 < real_cov (real_log10 pred) (real_log10 pred))%R ->
   correlation (model_statistics core pred)
   = Fin (real_corrcoef (real_log10 core) (real_log10 pred))).
Proof.
  intros Hne Hlen Hcore Hpred.
  cbn [model_statistics rmse_log mape correlation].
  rewrite !np_log10_Fin by assumption.
  assert (Hc : (0 < length core)%nat)
    by (destruct core; [congruence | cbn [length]; lia]).
  split; [|split].
  - rewrite ser_sub_Fin, ser_square_Fin. unfold real_rmse_log.
    rewrite np_mean_Fin.
    + apply f64_sqrt_Fin, real_mean_nonneg.
      unfold arr_pow. apply Forall_fmap, Forall_forall. intros v _.
      simpl. nra.
    + unfold arr_pow, arr_sub, real_log10. intros Hnil.
      apply (f_equal length) in Hnil.
      rewrite length_fmap, length_zip_with, !length_fmap in Hnil.
      cbn [length] in Hnil. lia.
  - rewrite ser_sub_Fin, ser_div_Fin, np_abs_Fin.
    + unfold real_mape. rewrite np_mean_Fin; [reflexivity|].
      unfold arr_div, arr_sub. intros Hnil. apply (f_equal length) in Hnil.
      rewrite length_fmap, !length_zip_with in Hnil.
      cbn [length] in Hnil. lia.
    + eapply Forall_impl; [exact Hcore|]. intros v Hv. simpl in Hv. lra.
  - intros Hx Hy. apply np_corrcoef_Fin; [|exact Hx|exact Hy].
    unfold real_log10. rewrite !length_fmap. exact Hlen.
Qed.

(** X8. On a generated dataset with at least one sample the statistics
    are computed without division by zero or logarithm of zero (every
    permeability is at least 0.01), and for each of the three models
    the log-space RMSE is a finite value in [0, 6] and the MAPE a finite
    value in [0, 99999900]. *)
Theorem statistics_of_generated_data
    (legacy_gauss : rng_state -> R * rng_state)
    (self : NMRDataGenerator) (st : rng_state) :
  1 <= n_samples self ->
  returns (generate_and_score legacy_gauss self st) (fun stats =>
    dom stats = {[ "Coates"; "Timur_Coates"; "SDR" ]}%string /\
    forall model s, stats !! model = Some s ->
      exists r m,
        rmse_log s = Fin r /\ mape s = Fin m /\
        (0 <= r <= 6)%R /\ (0 <= m <= 99999900)%R).
Proof.
  intros Hn. unfold generate_and_score.
  destruct (generate_run legacy_gauss self st ltac:(lia))
    as (depth & _ & Hlen & Hgen).
  erewrite bind_Ok by exact Hgen.
  set (data := table_of_run depth _).
  pose proof (fun model s => calculate_statistics_entries self data model s)
    as Hentries.
  rewrite calculate_statistics_run in Hentries |- *.
  cbv beta iota delta [returns returned lift yields] in Hentries |- *.
  split; [rewrite !dom_insert_L, dom_empty_L; set_solver|].
  intros model s Hs.
  destruct (Hentries model s Hs) as (pred & _ & -> & Hpred).
  pose proof (table_of_run_rows legacy_gauss _ st depth Hlen) as Hrows.
  fold data in Hrows. unfold has_rows, columns in Hrows.
  rewrite !Forall_cons in Hrows. cbn [snd] in Hrows.
  destruct Hrows as (_ & _ & _ & _ & _ & _ & Lk & Lc & Lt & Ls & _).
  assert (Hclip : forall a, Forall (fun x => 0.01 <= x <= 10000)%R
                              (np_clip a 0.01 10000)).
  { intros a. apply np_clip_range. lra. }
  assert (Hcore : Forall (fun x => 0.01 <= x <= 10000)%R
                    (Core_Permeability_mD data)) by apply Hclip.
  assert (Hp : Forall (fun x => 0.01 <= x <= 10000)%R pred)
    by (destruct Hpred as [-> | [-> | ->]]; apply Hclip).
  assert (Hne : Core_Permeability_mD data <> []).
  { intros Hnil. rewrite Hnil in Lk. simpl in Lk. lia. }
  assert (Hl : length pred = length (Core_Permeability_mD data))
    by (destruct Hpred as [-> | [-> | ->]]; congruence).
  destruct (model_statistics_finite _ pred Hne Hl) as (Hr & Hm & _).
  { eapply Forall_impl; [exact Hcore|]. intros v Hv. simpl in Hv. lra. }
  { eapply Forall_impl; [exact Hp|]. intros v Hv. simpl in Hv. lra. }
  destruct (real_statistics_bounds _ pred Hne Hl Hcore Hp) as [Hrb Hmb].
  eexists _, _. split; [exact Hr|]. split; [exact Hm|]. split; assumption.
Qed.

Lemma statistics_of_generated_data_witness :
  returns (generate_and_score polar_gauss three_samples stream_42) (fun stats =>
    dom stats = {[ "Coates"; "Timur_Coates"; "SDR" ]}%string /\
    forall model s, stats !! model = Some s ->
      exists r m,
        rmse_log s = Fin r /\ mape s = Fin m /\
        (0 <= r <= 6)%R /\ (0 <= m <= 99999900)%R).
Proof.
  apply (statistics_of_generated_data polar_gauss three_samples stream_42).
  simpl. lia.
Defined.

Lemma real_mean_zeros (l : list R) :
  Forall (fun x => x = 0%R) l -> real_mean l = 0%R.
Proof.
  intros Hl. assert (Hs : real_sum l = 0%R).
  { induction Hl as [|x l Hx Hl IH]; [reflexivity|].
    change (real_sum (x :: l)) with (x + real_sum l)%R. lra. }
  unfold real_mean, Rdiv. rewrite Hs. apply Rmult_0_l.
Qed.

Lemma real_statistics_exact (core : list R) :
  real_rmse_log core core = 0%R /\
  real_mape core core = 0%R /\
  ((0 < real_cov (real_log10 core) (real_log10 core))%R ->
   real_corrcoef (real_log10 core) (real_log10 core) = 1%R).
Proof.
  unfold real_rmse_log, real_mape. repeat split.
  - rewrite real_mean_zeros; [apply sqrt_0|].
    apply Forall_lookup. intros i v Hv.
    unfold arr_pow, arr_sub in Hv. rewrite list_lookup_fmap in Hv.
    destruct (zip_with Rminus _ _ !! i) as [d|] eqn:Hd; [|discriminate].
    injection Hv as <-.
    apply lookup_zip_with_Some in Hd as (a & b & -> & Ha & Hb).
    rewrite Ha in Hb. injection Hb as <-. simpl. ring.
  - rewrite real_mean_zeros; [ring|].
    apply Forall_lookup. intros i v Hv.
    unfold arr_div, arr_sub in Hv. rewrite list_lookup_fmap in Hv.
    destruct (zip_with Rdiv _ _ !! i) as [d|] eqn:Hd; [|discriminate].
    injection Hv as <-.
    apply lookup_zip_with_Some in Hd as (a & c & -> & Ha & Hc).
    apply lookup_zip_with_Some in Ha as (c' & q & -> & Hc' & Hq).
    rewrite Hc' in Hq. injection Hq as <-.
    unfold Rminus, Rdiv. rewrite Rplus_opp_r, Rmult_0_l. apply Rabs_R0.
  - intros Hvar. unfold real_corrcoef.
    set (v := real_cov (real_log10 core) (real_log10 core)) in *.
    assert (Hs : (0 < sqrt v)%R) by (apply sqrt_lt_R0; exact Hvar).
    assert (Hone : (v / sqrt v / sqrt v = 1)%R).
    { rewrite <- (sqrt_sqrt v) at 1 by lra. field. lra. }
    rewrite Hone. unfold clip1, Rmin, Rmax.
    destruct (Rle_dec 1 (-1)); [lra|].
    destruct (Rle_dec 1 1); lra.
Qed.

(** X9. A model whose column reproduces the core permeabilities exactly
    gets a log-space RMSE of 0 and a MAPE of 0, and a correlation of 1
    when the log-permeabilities are not all equal (positive variance).
    The core column is taken non-empty and positive, where every
    floating-point operation of the statistics gives a finite value. *)
Theorem exact_model_has_zero_error (self : NMRDataGenerator)
    (data : DataFrame) :
  Core_Permeability_mD data <> [] ->
  Forall (fun c => 0 < c)%R (Core_Permeability_mD data) ->
  yields (calculate_statistics self data) (fun '(stats, _) =>
    forall model s,
      stats !! model = Some s ->
      getitem data (model +:+ "_Permeability_mD")%string
        = Ok (Core_Permeability_mD data) ->
      rmse_log s = Fin 0 /\ mape s = Fin 0 /\
      ((0 < real_cov (real_log10 (Core_Permeability_mD data))
                     (real_log10 (Core_Permeability_mD data)))%R ->
       correlation s = Fin 1)).
Proof.
  intros Hne Hpos.
  pose proof (fun model s => calculate_statistics_entries self data model s)
    as Hentries.
  rewrite calculate_statistics_run in Hentries |- *.
  cbv beta iota delta [yields] in Hentries |- *.
  intros model s Hs Hcol.
  destruct (Hentries model s Hs) as (pred & Hcol' & -> & _).
  rewrite Hcol in Hcol'. injection Hcol' as <-.
  destruct (model_statistics_finite _ _ Hne eq_refl Hpos Hpos)
    as (Hr & Hm & Hc).
  destruct (real_statistics_exact (Core_Permeability_mD data))
    as (Hr0 & Hm0 & Hc1).
  rewrite Hr, Hm, Hr0, Hm0. split; [reflexivity|]. split; [reflexivity|].
  intros Hvar. rewrite (Hc Hvar Hvar), (Hc1 Hvar). reflexivity.
Qed.

(** A two-row table whose Coates column repeats the core column. *)
Lemma exact_model_has_zero_error_witness :
  let data := mk_DataFrame [2000%R; 2500%R] [0.2%R; 0.3%R] [100%R; 200%R]
                [0.05%R; 0.1%R] [0.15%R; 0.2%R] [0.1%R; 0.2%R]
                [1%R; 10%R] [1%R; 10%R] [2%R; 5%R] [3%R; 7%R] in
  yields (calculate_statistics three_samples data) (fun '(stats, _) =>
    forall model s,
      stats !! model = Some s ->
      getitem data (model +:+ "_Permeability_mD")%string
        = Ok (Core_Permeability_mD data) ->
      rmse_log s = Fin 0 /\ mape s = Fin 0 /\
      ((0 < real_cov (real_log10 (Core_Permeability_mD data))
                     (real_log10 (Core_Permeability_mD data)))%R ->
       correlation s = Fin 1)).
Proof.
  intros data.
  apply (exact_model_has_zero_error three_samples data).
  - discriminate.
  - repeat constructor; simpl; lra.
Defined.

(** * Properties of the thesis document builder *)

Section ThesisFacts.

Import Thesis.

Variable str_upper : string -> string.

(** The generator object with title [t], Normal style [ns], body [b]. *)
Abbreviation G t ns b := (mk_ResearchThesisGenerator t (mk_Document ns b)).

Lemma wbind_Ok {A B} (m : W A) (f : A -> W B)
    (self self' : ResearchThesisGenerator) (a : A) :
  m self = Ok (a, self') -> (m ≫= f) self = f a self'.
Proof. intros H. unfold mbind, W_bind. rewrite H. reflexivity. Qed.

Lemma wbind_if {A B} (m : W A) (f : A -> W B)
    (self self' : ResearchThesisGenerator) (a : A) (c : bool) (e : exception) :
  m self = (if c then Ok (a, self') else Raise e) ->
  (m ≫= f) self = if c then f a self' else Raise e.
Proof. intros H. unfold mbind, W_bind. rewrite H. destruct c; reflexivity. Qed.

Lemma wbind_assoc {A B C} (m : W A) (f : A -> W B) (g : B -> W C)
    (self : ResearchThesisGenerator) :
  ((m ≫= f) ≫= g) self = (m ≫= fun a => f a ≫= g) self.
Proof.
  unfold mbind, W_bind. destruct (m self) as [[a self']|e]; reflexivity.
Qed.

Lemma alter_last {A} (f : A -> A) (l : list A) (x : A) :
  alter f (length l) (l ++ [x]) = l ++ [f x].
Proof. induction l as [|y l IH]; simpl; [reflexivity | f_equal; exact IH]. Qed.

Lemma lookup_last {A} (l : list A) (x : A) : (l ++ [x]) !! length l = Some x.
Proof. induction l as [|y l IH]; simpl; [reflexivity | exact IH]. Qed.

Lemma append_paragraph_run (par : Paragraph) t ns b :
  append_paragraph par (G t ns b) = Ok (length b, G t ns (b ++ [par])).
Proof. reflexivity. Qed.

Lemma update_paragraph_last (f : Paragraph -> Paragraph) t ns b x :
  update_paragraph (length b) f (G t ns (b ++ [x]))
  = Ok (tt, G t ns (b ++ [f x])).
Proof.
  unfold update_paragraph, with_body. cbn [doc body title normal_style].
  rewrite alter_last. reflexivity.
Qed.

Lemma set_alignment_last (a : WD_ALIGN_PARAGRAPH) t ns b s al li fi rs :
  set_alignment (length b) a (G t ns (b ++ [mk_Paragraph s al li fi rs]))
  = Ok (tt, G t ns (b ++ [mk_Paragraph s (Some a) li fi rs])).
Proof. unfold set_alignment. rewrite update_paragraph_last. reflexivity. Qed.

Lemma set_left_indent_last (x : Z) t ns b s al li fi rs :
  set_left_indent (length b) x (G t ns (b ++ [mk_Paragraph s al li fi rs]))
  = Ok (tt, G t ns (b ++ [mk_Paragraph s al (Some x) fi rs])).
Proof. unfold set_left_indent. rewrite update_paragraph_last. reflexivity. Qed.

Lemma set_first_line_indent_last (x : Z) t ns b s al li fi rs :
  set_first_line_indent (length b) x
    (G t ns (b ++ [mk_Paragraph s al li fi rs]))
  = Ok (tt, G t ns (b ++ [mk_Paragraph s al li (Some x) rs])).
Proof.
  unfold set_first_line_indent. rewrite update_paragraph_last. reflexivity.
Qed.

Lemma update_run_last (f : Run -> Run) t ns b s al li fi rs r :
  update_run (length b, length rs) f
    (G t ns (b ++ [mk_Paragraph s al li fi (rs ++ [r])]))
  = Ok (tt, G t ns (b ++ [mk_Paragraph s al li fi (rs ++ [f r])])).
Proof.
  unfold update_run. cbn [fst snd]. rewrite update_paragraph_last.
  unfold with_runs. cbn [par_style par_alignment par_left_indent
                           par_first_line_indent par_runs].
  rewrite alter_last. reflexivity.
Qed.

Lemma set_bold_last (v : bool) t ns b s al li fi rs tx bo it sz co br :
  set_bold (length b, length rs) v
    (G t ns (b ++ [mk_Paragraph s al li fi (rs ++ [mk_Run tx bo it sz co br])]))
  = Ok (tt, G t ns (b ++ [mk_Paragraph s al li fi
                            (rs ++ [mk_Run tx (Some v) it sz co br])])).
Proof. unfold set_bold. rewrite update_run_last. reflexivity. Qed.

Lemma set_italic_last (v : bool) t ns b s al li fi rs tx bo it sz co br :
  set_italic (length b, length rs) v
    (G t ns (b ++ [mk_Paragraph s al li fi (rs ++ [mk_Run tx bo it sz co br])]))
  = Ok (tt, G t ns (b ++ [mk_Paragraph s al li fi
                            (rs ++ [mk_Run tx bo (Some v) sz co br])])).
Proof. unfold set_italic. rewrite update_run_last. reflexivity. Qed.

Lemma set_size_last (v : Z) t ns b s al li fi rs tx bo it sz co br :
  set_size (length b, length rs) v
    (G t ns (b ++ [mk_Paragraph s al li fi (rs ++ [mk_Run tx bo it sz co br])]))
  = Ok (tt, G t ns (b ++ [mk_Paragraph s al li fi
                            (rs ++ [mk_Run tx bo it (Some v) co br])])).
Proof. unfold set_size. rewrite update_run_last. reflexivity. Qed.

Lemma set_color_last (v : Z * Z * Z) t ns b s al li fi rs tx bo it sz co br :
  set_color (length b, length rs) v
    (G t ns (b ++ [mk_Paragraph s al li fi (rs ++ [mk_Run tx bo it sz co br])]))
  = Ok (tt, G t ns (b ++ [mk_Paragraph s al li fi
                            (rs ++ [mk_Run tx bo it sz (Some v) br])])).
Proof. unfold set_color. rewrite update_run_last. reflexivity. Qed.

Lemma add_break_page_last t ns b s al li fi rs tx bo it sz co br :
  add_break_page (length b, length rs)
    (G t ns (b ++ [mk_Paragraph s al li fi (rs ++ [mk_Run tx bo it sz co br])]))
  = Ok (tt, G t ns (b ++ [mk_Paragraph s al li fi
                            (rs ++ [mk_Run tx bo it sz co true])])).
Proof. unfold add_break_page. rewrite update_run_last. reflexivity. Qed.

Lemma xml_compatible_empty (text : string) :
  is_empty text = true -> xml_compatible text = true.
Proof. destruct text; [reflexivity | discriminate]. Qed.

(** [add_run] on the paragraph added last. *)
Lemma add_run_last (text : string) t ns b s al li fi rs :
  add_run (length b) text (G t ns (b ++ [mk_Paragraph s al li fi rs]))
  = if xml_compatible text
    then Ok ((length b, length rs),
             G t ns (b ++ [mk_Paragraph s al li fi
                             (rs ++ [mk_Run (as_read_back text) None None None
                                            None false])]))
    else Raise xml_error.
Proof.
  unfold add_run. cbn [doc body]. rewrite lookup_last.
  cbn [default from_option par_runs].
  erewrite wbind_Ok by apply update_paragraph_last.
  unfold with_runs. cbn [par_style par_alignment par_left_indent
                           par_first_line_indent par_runs].
  destruct text as [|c text'].
  - reflexivity.
  - cbn [is_empty]. unfold mbind at 1, W_bind. unfold set_text.
    destruct (xml_compatible (String c text')); [|reflexivity].
    unfold new_run. rewrite update_run_last. reflexivity.
Qed.

Lemma add_paragraph_run (text style : string) t ns b :
  add_paragraph text style (G t ns b)
  = if xml_compatible text
    then Ok (length b, G t ns (b ++ [plain_paragraph text style]))
    else Raise xml_error.
Proof.
  unfold add_paragraph.
  erewrite wbind_Ok by apply append_paragraph_run.
  unfold plain_paragraph, new_paragraph, text_run. destruct text as [|c text'].
  - reflexivity.
  - cbn [is_empty]. unfold mbind at 1, W_bind. unfold mbind at 1, W_bind.
    rewrite add_run_last.
    destruct (xml_compatible (String c text')); reflexivity.
Qed.

Lemma add_heading_run (text : string) (level : Z) t ns b :
  1 <= level <= 9 ->
  add_heading text level (G t ns b)
  = if xml_compatible text
    then Ok (length b,
             G t ns (b ++ [plain_paragraph text ("Heading " +:+ pretty level)]))
    else Raise xml_error.
Proof.
  intros Hl. unfold add_heading.
  destruct (Z.ltb_spec level 0); [lia|].
  destruct (Z.ltb_spec 9 level); [lia|].
  destruct (Z.eqb_spec level 0); [lia|].
  cbn [orb]. apply add_paragraph_run.
Qed.

Lemma add_page_break_run t ns b :
  add_page_break (G t ns b)
  = Ok (length b, G t ns (b ++ [page_break_paragraph])).
Proof.
  unfold add_page_break.
  erewrite wbind_Ok by (rewrite add_paragraph_run; reflexivity).
  unfold plain_paragraph. cbn [is_empty].
  erewrite wbind_Ok by (rewrite add_run_last; reflexivity).
  erewrite wbind_Ok by apply add_break_page_last.
  reflexivity.
Qed.

(** One statement of a method: run it on the current object and go on
    with the rest; a text that may be refused splits the proof. *)
Ltac rewrite_checks :=
  repeat match goal with
         | H : xml_compatible _ = _ |- _ => rewrite H
         | H : forallb xml_compatible _ = _ |- _ => rewrite H
         end.

Ltac wstep :=
  rewrite ?wbind_assoc;
  first
    [ erewrite wbind_Ok by
        first [ apply set_alignment_last | apply set_bold_last
              | apply set_size_last | apply set_italic_last
              | apply set_color_last | apply set_left_indent_last
              | apply set_first_line_indent_last | apply add_page_break_run
              | (rewrite add_paragraph_run; reflexivity)
              | (rewrite add_run_last; reflexivity)
              | (rewrite add_heading_run by lia; reflexivity) ]
    | erewrite wbind_if by
        first [ (cbv beta; cbn [title]; apply add_run_last)
              | apply add_run_last | apply add_paragraph_run
              | (apply add_heading_run; lia) ];
      match goal with
      | |- (if ?c then _ else _) = _ =>
          destruct c eqn:?;
          [| cbn [forallb app]; rewrite_checks; reflexivity ]
      end ].

Ltac wdone :=
  cbn [forallb app]; rewrite_checks;
  unfold mret, W_ret; cbn [andb];
  repeat rewrite <- app_assoc; reflexivity.

Lemma add_abstract_run (content : string) t ns b :
  add_abstract content (G t ns b)
  = if xml_compatible content
    then Ok (tt, G t ns (b ++ abstract_blocks content))
    else Raise xml_error.
Proof.
  unfold add_abstract, abstract_blocks, aligned_paragraph, plain_paragraph.
  repeat wstep. unfold plain_paragraph. repeat wstep. wdone.
Qed.

Lemma add_figure_placeholder_run (figure_title description : string) t ns b :
  add_figure_placeholder figure_title description (G t ns b)
  = if forallb xml_compatible
         [("[FIGURE: " +:+ figure_title +:+ "]")%string; description]
    then Ok (tt, G t ns (b ++ figure_blocks figure_title description))
    else Raise xml_error.
Proof.
  unfold add_figure_placeholder, figure_blocks.
  repeat (first [wstep | unfold plain_paragraph; cbn [is_empty]]).
  rewrite set_italic_last. wdone.
Qed.

Lemma references_loop (references : list string) t ns b :
  for_each references (fun ref (_ : unit) =>
    p ← add_paragraph ref "Normal";
    set_alignment p LEFT;;
    set_left_indent p (Inches 1 2);;
    set_first_line_indent p (Inches (-1) 2)) tt (G t ns b)
  = if forallb xml_compatible references
    then Ok (tt, G t ns (b ++ (reference_paragraph <$> references)))
    else Raise xml_error.
Proof.
  revert b. induction references as [|ref refs IH]; intros b.
  - cbn [for_each forallb fmap list_fmap]. rewrite app_nil_r. reflexivity.
  - cbn [for_each].
    wstep. unfold plain_paragraph. repeat wstep.
    cbn [forallb fmap list_fmap]. rewrite_checks. cbn [andb].
    rewrite IH.
    destruct (forallb xml_compatible refs); [|reflexivity].
    rewrite <- app_assoc. reflexivity.
Qed.

Lemma add_references_run (references : list string) t ns b :
  add_references references (G t ns b)
  = if forallb xml_compatible references
    then Ok (tt, G t ns (b ++ references_blocks references))
    else Raise xml_error.
Proof.
  unfold add_references, references_blocks, aligned_paragraph.
  repeat wstep. unfold plain_paragraph. repeat wstep.
  erewrite wbind_if by apply references_loop.
  destruct (forallb xml_compatible references); [|reflexivity].
  repeat wstep. unfold mret, W_ret. cbn [is_empty].
  repeat rewrite <- app_assoc. reflexivity.
Qed.

Lemma enumerate_cons {A} (i : Z) (x : A) (xs : list A) :
  enumerate i (x :: xs) = (i, x) :: enumerate (Z.succ i) xs.
Proof.
  unfold enumerate. cbn [length]. rewrite seqZ_cons by lia.
  rewrite Nat2Z.inj_succ, Z.pred_succ. reflexivity.
Qed.

Lemma enumerate_length {A} (i : Z) (xs : list A) :
  length (enumerate i xs) = length xs.
Proof.
  unfold enumerate. rewrite length_zip, length_seqZ. lia.
Qed.

Lemma paragraphs_loop (paragraphs : list string) t ns b :
  for_each paragraphs (fun paragraph (_ : unit) =>
    p ← add_paragraph paragraph "Normal";
    set_alignment p JUSTIFY) tt (G t ns b)
  = if forallb xml_compatible paragraphs
    then Ok (tt, G t ns (b ++ ((fun c => aligned_paragraph c "Normal" JUSTIFY)
                                 <$> paragraphs)))
    else Raise xml_error.
Proof.
  revert b. induction paragraphs as [|x xs IH]; intros b.
  - cbn [for_each forallb fmap list_fmap]. rewrite app_nil_r. reflexivity.
  - cbn [for_each].
    wstep. unfold plain_paragraph. repeat wstep.
    cbn [forallb fmap list_fmap]. rewrite_checks. cbn [andb].
    rewrite IH.
    destruct (forallb xml_compatible xs); [|reflexivity].
    rewrite <- app_assoc. reflexivity.
Qed.

Lemma sections_loop (chapter_number : Z)
    (sections : list (string * section_content)) (i : Z) t ns b :
  for_each (enumerate i sections)
    (fun '(i, (section_title, section_content)) (_ : unit) =>
      section_heading ← add_heading
        (pretty chapter_number +:+ "." +:+ pretty i +:+ " " +:+ section_title)
        2;
      match section_content with
      | Paragraphs paragraphs =>
          for_each paragraphs (fun paragraph (_ : unit) =>
            p ← add_paragraph paragraph "Normal";
            set_alignment p JUSTIFY) tt
      | Text content =>
          p ← add_paragraph content "Normal";
          set_alignment p JUSTIFY
      end) tt (G t ns b)
  = if forallb xml_compatible
         (concat (section_texts chapter_number <$> enumerate i sections))
    then Ok (tt, G t ns (b ++ concat (section_blocks chapter_number
                                        <$> enumerate i sections)))
    else Raise xml_error.
Proof.
  revert i b. induction sections as [|[section_title content] rest IH];
    intros i b.
  - cbn [enumerate length Z.of_nat]. unfold enumerate.
    cbn [for_each forallb fmap list_fmap concat zip zip_with seqZ].
    rewrite app_nil_r. reflexivity.
  - rewrite enumerate_cons. cbn [for_each fmap list_fmap concat].
    rewrite forallb_app.
    unfold section_texts at 1, section_blocks at 1.
    cbn [fst snd forallb]. fold (section_heading_text chapter_number i section_title).
    rewrite wbind_assoc.
    erewrite wbind_if by (apply add_heading_run; lia).
    change ("Heading " +:+ pretty 2)%string with "Heading 2"%string.
    destruct (xml_compatible (section_heading_text chapter_number i section_title));
      [|reflexivity].
    cbn [andb]. destruct content as [c|ps]; cbn [content_paragraphs].
    + rewrite wbind_assoc.
      erewrite wbind_if by apply add_paragraph_run.
      cbn [forallb]. destruct (xml_compatible c); [|reflexivity].
      erewrite wbind_Ok by (unfold plain_paragraph; apply set_alignment_last).
      cbn [andb]. rewrite IH.
      destruct (forallb xml_compatible _); [|reflexivity].
      cbn [fmap list_fmap app]. unfold aligned_paragraph.
      rewrite <- !app_assoc. reflexivity.
    + erewrite wbind_if by apply paragraphs_loop.
      destruct (forallb xml_compatible ps); [|reflexivity].
      cbn [andb]. rewrite IH.
      destruct (forallb xml_compatible _); [|reflexivity].
      rewrite <- !app_assoc. reflexivity.
Qed.

Lemma add_chapter_run (chapter_number : Z) (chapter_title : string)
    (sections : list (string * section_content)) t ns b :
  add_chapter str_upper chapter_number chapter_title sections (G t ns b)
  = if forallb xml_compatible
         (chapter_texts str_upper chapter_number chapter_title sections)
    then Ok (tt, G t ns (b ++ chapter_blocks str_upper chapter_number
                                 chapter_title sections))
    else Raise xml_error.
Proof.
  unfold add_chapter, chapter_texts, chapter_blocks. cbn [forallb].
  fold (chapter_heading_text str_upper chapter_number chapter_title).
  erewrite wbind_if by (apply add_heading_run; lia).
  change ("Heading " +:+ pretty 1)%string with "Heading 1"%string.
  destruct (xml_compatible
              (chapter_heading_text str_upper chapter_number chapter_title));
    [|reflexivity].
  erewrite wbind_Ok by (unfold plain_paragraph; apply set_alignment_last).
  erewrite wbind_if by apply sections_loop.
  cbn [andb]. destruct (forallb xml_compatible _); [|reflexivity].
  erewrite wbind_Ok by apply add_page_break_run.
  unfold mret, W_ret, aligned_paragraph.
  rewrite <- !app_assoc. reflexivity.
Qed.

Lemma students_loop (students : list string) t ns b :
  for_each students (fun student (_ : unit) =>
    p ← add_paragraph "" "Normal";
    set_alignment p CENTER;;
    run ← add_run p student;
    set_size run (Pt 12)) tt (G t ns b)
  = if forallb xml_compatible students
    then Ok (tt, G t ns (b ++ ((fun student =>
                                  centered_paragraph student None (Pt 12))
                                 <$> students)))
    else Raise xml_error.
Proof.
  revert b. induction students as [|x xs IH]; intros b.
  - cbn [for_each forallb fmap list_fmap]. rewrite app_nil_r. reflexivity.
  - cbn [for_each].
    wstep. unfold plain_paragraph. cbn [is_empty]. repeat wstep.
    cbn [forallb fmap list_fmap]. rewrite_checks. cbn [andb].
    rewrite IH.
    destruct (forallb xml_compatible xs); [|reflexivity].
    rewrite <- app_assoc. reflexivity.
Qed.

Lemma add_cover_page_run (university college department : string)
    (students : list string) (supervisor year : string) t ns b :
  add_cover_page str_upper university college department students
    supervisor year (G t ns b)
  = if forallb xml_compatible
         (cover_texts str_upper t university college department students
            supervisor year)
    then Ok (tt, G t ns (b ++ cover_blocks str_upper t university college
                                 department students supervisor year))
    else Raise xml_error.
Proof.
  unfold add_cover_page, cover_texts, cover_blocks, centered_paragraph.
  cbn [app forallb]. rewrite forallb_app. cbn [forallb].
  repeat (first [wstep | unfold plain_paragraph; cbn [is_empty title]]).
  erewrite wbind_if by apply students_loop.
  destruct (forallb xml_compatible students) eqn:Hstudents;
    [| rewrite_checks; reflexivity ].
  repeat (first [wstep | unfold plain_paragraph; cbn [is_empty title]]).
  rewrite_checks. unfold mret, W_ret. cbn [andb].
  repeat rewrite <- app_assoc. reflexivity.
Qed.

Lemma string_app_empty (text : string) : (text +:+ "")%string = text.
Proof.
  induction text as [|c text IH]; [reflexivity|].
  change (String c (text +:+ "") = String c text)%string.
  f_equal. exact IH.
Qed.

(** A text without carriage return is read back as it was written. *)
Lemma as_read_back_without_cr (text : string) :
  (forall i, String.get i text <> Some (Ascii.ascii_of_nat 13)) ->
  as_read_back text = text.
Proof.
  induction text as [|c text IH]; intros Hcr; [reflexivity|].
  cbn [as_read_back]. destruct (Ascii.eqb_spec c (Ascii.ascii_of_nat 13)) as [->|_].
  - exfalso. apply (Hcr 0%nat). reflexivity.
  - f_equal. apply IH. intros i. exact (Hcr (S i)).
Qed.

Lemma text_of_optional_run (text : string) :
  foldr String.append ""%string
    (run_text <$> (if is_empty text then [] else [text_run text]))
  = as_read_back text.
Proof.
  destruct text as [|c text]; [reflexivity|].
  cbn [is_empty fmap list_fmap foldr text_run run_text].
  apply string_app_empty.
Qed.

Lemma paragraph_text_plain (text style : string) :
  paragraph_text (plain_paragraph text style) = as_read_back text.
Proof. apply text_of_optional_run. Qed.

Lemma paragraph_text_aligned (text style : string) (a : WD_ALIGN_PARAGRAPH) :
  paragraph_text (aligned_paragraph text style a) = as_read_back text.
Proof. apply text_of_optional_run. Qed.

Lemma paragraph_text_reference (ref : string) :
  paragraph_text (reference_paragraph ref) = as_read_back ref.
Proof. apply text_of_optional_run. Qed.

Lemma paragraph_text_centered (text : string) (bold : option bool) (size : Z) :
  paragraph_text (centered_paragraph text bold size) = as_read_back text.
Proof. apply string_app_empty. Qed.

Lemma last_snoc {A} (l : list A) (x : A) : last (l ++ [x]) = Some x.
Proof. induction l as [|y [|z l] IH]; try reflexivity. exact IH. Qed.

(** X10. [add_references] raises lxml's [ValueError] exactly when a
    reference is not XML-compatible.  Otherwise it leaves the title, the
    Normal style and the paragraphs already in the document as they are
    and appends [len(references) + 2] paragraphs: after the heading, the
    paragraph of reference [i] reads back as that reference's text (a
    carriage return in it as a newline), left aligned with a hanging
    indent (left indent 0.5 inch = 457200 EMU, first line -457200 EMU);
    the last paragraph is a page break. *)
Theorem references_are_appended_with_hanging_indent
    (references : list string) (self : ResearchThesisGenerator) :
  match add_references references self with
  | Ok (_, self') =>
      forallb xml_compatible references = true /\
      title self' = title self /\
      normal_style (doc self') = normal_style (doc self) /\
      length (body (doc self'))
        = (length (body (doc self)) + length references + 2)%nat /\
      (forall i par, body (doc self) !! i = Some par ->
                     body (doc self') !! i = Some par) /\
      (forall i ref, references !! i = Some ref ->
         exists par,
           body (doc self') !! (length (body (doc self)) + 1 + i)%nat
             = Some par /\
           paragraph_text par = as_read_back ref /\
           ((forall k, String.get k ref <> Some (Ascii.ascii_of_nat 13)) ->
            paragraph_text par = ref) /\
           par_alignment par = Some LEFT /\
           par_left_indent par = Some 457200 /\
           par_first_line_indent par = Some (-457200)) /\
      (exists par, last (body (doc self')) = Some par /\
                   is_page_break par = true)
  | Raise e => forallb xml_compatible references = false /\ e = xml_error
  end.
Proof.
  destruct self as [t [ns b]]. rewrite add_references_run.
  destruct (forallb xml_compatible references); [|split; reflexivity].
  cbn [title doc normal_style body]. unfold references_blocks.
  split; [reflexivity|]. split; [reflexivity|]. split; [reflexivity|].
  split; [|split; [|split]].
  - rewrite length_app. cbn [length]. rewrite length_app, length_fmap.
    cbn [length]. lia.
  - intros i par Hi. rewrite lookup_app_l by (eapply lookup_lt_Some; exact Hi).
    exact Hi.
  - intros i ref Hi. exists (reference_paragraph ref).
    split; [|split; [apply paragraph_text_reference | split; [|repeat split]]].
    2: { intros Hcr. rewrite paragraph_text_reference.
         apply as_read_back_without_cr, Hcr. }
    rewrite <- Nat.add_assoc, lookup_app_r by lia.
    replace (length b + (1 + i) - length b)%nat with (S i) by lia.
    rewrite lookup_cons. cbv beta iota.
    rewrite lookup_app_l
      by (rewrite length_fmap; eapply lookup_lt_Some; exact Hi).
    rewrite list_lookup_fmap, Hi. reflexivity.
  - exists page_break_paragraph. split; [|reflexivity].
    change (aligned_paragraph "REFERENCES" "Heading 1" CENTER
            :: (reference_paragraph <$> references) ++ [page_break_paragraph])
      with ((aligned_paragraph "REFERENCES" "Heading 1" CENTER
             :: (reference_paragraph <$> references)) ++ [page_break_paragraph]).
    rewrite app_assoc. apply last_snoc.
Qed.

Lemma enumerate_lookup {A} (i : Z) (xs : list A) (j : nat) (x : A) :
  xs !! j = Some x -> enumerate i xs !! j = Some (i + Z.of_nat j, x).
Proof.
  revert i j. induction xs as [|y ys IH]; intros i j Hj; [discriminate|].
  rewrite enumerate_cons. destruct j as [|j].
  - injection Hj as ->. cbn. f_equal. f_equal. lia.
  - rewrite lookup_cons. cbv beta iota. rewrite (IH (Z.succ i) j Hj).
    f_equal. f_equal. lia.
Qed.

Lemma second_level_headings_of_sections (chapter_number : Z)
    (l : list (Z * (string * section_content))) :
  second_level_headings (concat (section_blocks chapter_number <$> l))
  = (fun s => plain_paragraph
                (section_heading_text chapter_number (fst s) (fst (snd s)))
                "Heading 2") <$> l.
Proof.
  unfold second_level_headings.
  induction l as [|s l IH]; [reflexivity|].
  cbn [fmap list_fmap concat]. rewrite filter_app. unfold section_blocks at 1.
  rewrite filter_cons_True by reflexivity.
  replace (filter _ (_ <$> content_paragraphs (snd (snd s)))) with (@nil Paragraph).
  - cbn [app]. f_equal. exact IH.
  - symmetry. induction (content_paragraphs (snd (snd s))) as [|c cs IHc];
      [reflexivity|].
    cbn [fmap list_fmap]. rewrite filter_cons_False by discriminate. exact IHc.
Qed.

Lemma length_section_blocks (chapter_number : Z)
    (sections : list (string * section_content)) (i : Z) :
  length (concat (section_blocks chapter_number <$> enumerate i sections))
  = (length sections
     + sum_list ((fun s => length (content_paragraphs (snd s))) <$> sections))%nat.
Proof.
  revert i. induction sections as [|s rest IH]; intros i; [reflexivity|].
  rewrite enumerate_cons, !fmap_cons.
  change (sum_list (?x :: ?l)) with (x + sum_list l)%nat.
  cbn [concat length].
  rewrite length_app, (IH (Z.succ i)). unfold section_blocks.
  cbn [length snd]. rewrite length_fmap. lia.
Qed.

(** X11. [add_chapter] raises [ValueError] exactly when one of the texts
    it writes is not XML-compatible.  Otherwise it appends, after what
    the document already held: the first-level heading
    [CHAPTER <n>: <TITLE>], left aligned; per section a second-level
    heading and one paragraph per content paragraph; and a page break.
    The second-level headings are, in order, the sections' titles
    numbered [<n>.1], [<n>.2], ... without gaps.  Heading texts are
    given as python-docx reads them back: a carriage return in a title
    comes back as a newline. *)
Theorem chapter_sections_are_numbered
    (chapter_number : Z) (chapter_title : string)
    (sections : list (string * section_content))
    (self : ResearchThesisGenerator) :
  match add_chapter str_upper chapter_number chapter_title sections self with
  | Ok (_, self') =>
      forallb xml_compatible
        (chapter_texts str_upper chapter_number chapter_title sections) = true /\
      title self' = title self /\
      normal_style (doc self') = normal_style (doc self) /\
      exists new,
        body (doc self') = body (doc self) ++ new /\
        length new
          = (2 + length sections
             + sum_list ((fun s => length (content_paragraphs (snd s)))
                           <$> sections))%nat /\
        (exists h, new !! 0%nat = Some h /\
           par_style h = "Heading 1"%string /\
           par_alignment h = Some LEFT /\
           paragraph_text h
             = as_read_back ("CHAPTER " +:+ pretty chapter_number +:+ ": "
                             +:+ str_upper chapter_title)%string) /\
        length (second_level_headings new) = length sections /\
        (forall j section_title content,
           sections !! j = Some (section_title, content) ->
           (paragraph_text <$> second_level_headings new) !! j
           = Some (as_read_back (pretty chapter_number +:+ "."
                                 +:+ pretty (Z.of_nat j + 1) +:+ " "
                                 +:+ section_title)%string)) /\
        (exists par, last new = Some par /\ is_page_break par = true)
  | Raise e =>
      forallb xml_compatible
        (chapter_texts str_upper chapter_number chapter_title sections) = false /\
      e = xml_error
  end.
Proof.
  destruct self as [t [ns b]]. rewrite add_chapter_run.
  destruct (forallb xml_compatible _); [|split; reflexivity].
  cbn [title doc normal_style body].
  split; [reflexivity|]. split; [reflexivity|]. split; [reflexivity|].
  eexists. split; [reflexivity|].
  assert (Hh2 : second_level_headings
                  (chapter_blocks str_upper chapter_number chapter_title sections)
                = (fun s => plain_paragraph
                     (section_heading_text chapter_number (fst s) (fst (snd s)))
                     "Heading 2") <$> enumerate 1 sections).
  { unfold chapter_blocks, second_level_headings.
    rewrite filter_cons_False by discriminate.
    rewrite filter_app. fold (second_level_headings
      (concat (section_blocks chapter_number <$> enumerate 1 sections))).
    rewrite second_level_headings_of_sections.
    rewrite filter_cons_False by discriminate.
    rewrite filter_nil. apply app_nil_r. }
  split; [|split; [|split; [|split]]].
  - unfold chapter_blocks. cbn [length]. rewrite length_app, length_section_blocks.
    cbn [length]. lia.
  - eexists. split; [reflexivity|]. split; [reflexivity|].
    split; [reflexivity|]. apply paragraph_text_aligned.
  - rewrite Hh2, length_fmap. apply enumerate_length.
  - intros j section_title content Hj. rewrite Hh2.
    rewrite !list_lookup_fmap, (enumerate_lookup 1 _ _ _ Hj).
    cbn [fmap option_fmap option_map fst snd].
    rewrite paragraph_text_plain. unfold section_heading_text.
    replace (1 + Z.of_nat j) with (Z.of_nat j + 1) by lia. reflexivity.
  - exists page_break_paragraph. split; [|reflexivity].
    unfold chapter_blocks. rewrite app_comm_cons. apply last_snoc.
Qed.

(** X12. [add_cover_page] raises [ValueError] exactly when one of the
    texts it is given (the upper-cased university, college, department,
    the generator's title, a student, the supervisor, the year) is not
    XML-compatible.  Otherwise it appends [15 + len(students)]
    paragraphs and changes nothing else: the first is the upper-cased
    university name, the fifth is the generator's own title in one bold
    18 pt run, the students follow "Prepared by:" in the order given,
    one centred paragraph each, and the last paragraph is a page
    break.  Texts are given as python-docx reads them back: a carriage
    return in a name or in the title comes back as a newline. *)
Theorem cover_page_lists_students_in_order
    (university college department : string) (students : list string)
    (supervisor year : string) (self : ResearchThesisGenerator) :
  match add_cover_page str_upper university college department students
          supervisor year self with
  | Ok (_, self') =>
      forallb xml_compatible
        (str_upper university :: college :: department :: title self
         :: students ++ [supervisor; year]) = true /\
      title self' = title self /\
      normal_style (doc self') = normal_style (doc self) /\
      exists new,
        body (doc self') = body (doc self) ++ new /\
        length new = (15 + length students)%nat /\
        (exists par, new !! 0%nat = Some par /\
           paragraph_text par = as_read_back (str_upper university)) /\
        (exists par, new !! 4%nat = Some par /\
           par_alignment par = Some CENTER /\
           par_runs par
           = [mk_Run (as_read_back (title self)) (Some true) None
                     (Some (Pt 18)) None false]) /\
        (exists par, new !! 8%nat = Some par /\
           paragraph_text par = "Prepared by:"%string) /\
        (forall i student, students !! i = Some student ->
           exists par, new !! (9 + i)%nat = Some par /\
             paragraph_text par = as_read_back student /\
             par_alignment par = Some CENTER) /\
        (exists par, last new = Some par /\ is_page_break par = true)
  | Raise e =>
      forallb xml_compatible
        (str_upper university :: college :: department :: title self
         :: students ++ [supervisor; year]) = false /\
      e = xml_error
  end.
Proof.
  destruct self as [t [ns b]]. rewrite add_cover_page_run.
  cbn [title doc normal_style body].
  change (str_upper university :: college :: department :: t
          :: students ++ [supervisor; year])
    with (cover_texts str_upper t university college department students
            supervisor year).
  destruct (forallb xml_compatible _); [|split; reflexivity].
  cbn [title doc normal_style body].
  split; [reflexivity|]. split; [reflexivity|]. split; [reflexivity|].
  eexists. split; [reflexivity|]. unfold cover_blocks.
  split; [|split; [|split; [|split; [|split]]]].
  - rewrite !length_app, length_fmap. cbn [length]. lia.
  - eexists. split; [reflexivity|]. apply paragraph_text_centered.
  - eexists. split; [reflexivity|]. split; reflexivity.
  - eexists. split; [reflexivity|]. apply paragraph_text_centered.
  - intros i student Hi. eexists. split.
    + rewrite lookup_app_r by (cbn [length]; lia). cbn [length].
      replace (9 + i - 9)%nat with i by lia.
      rewrite lookup_app_l
        by (rewrite length_fmap; apply lookup_lt_is_Some; eauto).
      rewrite list_lookup_fmap, Hi. reflexivity.
    + split; [apply paragraph_text_centered | reflexivity].
  - exists page_break_paragraph. split; [|reflexivity].
    match goal with
    | |- last (?l1 ++ ?l2 ++ [?a1; ?a2; ?a3; ?a4; ?a5; ?a6]) = _ =>
        change (last (l1 ++ l2 ++ [a1; a2; a3; a4; a5] ++ [a6])
                = Some page_break_paragraph)
    end.
    rewrite !app_assoc. apply last_snoc.
Qed.

Lemma call_run (c : builder_call) t ns b :
  call str_upper c (G t ns b)
  = if forallb xml_compatible (call_texts str_upper t c)
    then Ok (tt, G t ns (b ++ call_blocks str_upper t c))
    else Raise xml_error.
Proof.
  destruct c; cbn [call call_texts call_blocks].
  - apply add_cover_page_run.
  - rewrite add_abstract_run. cbn [forallb]. rewrite andb_true_r. reflexivity.
  - apply add_chapter_run.
  - apply add_references_run.
  - apply add_figure_placeholder_run.
Qed.

Lemma calls_run (cs : list builder_call) t ns b :
  calls str_upper cs (G t ns b)
  = if forallb xml_compatible (concat (call_texts str_upper t <$> cs))
    then Ok (tt, G t ns (b ++ concat (call_blocks str_upper t <$> cs)))
    else Raise xml_error.
Proof.
  revert b. induction cs as [|c cs IH]; intros b.
  - cbn. rewrite app_nil_r. reflexivity.
  - cbn [calls]. erewrite wbind_if by apply call_run.
    rewrite !fmap_cons. cbn [concat]. rewrite forallb_app.
    destruct (forallb xml_compatible (call_texts str_upper t c));
      [|reflexivity].
    rewrite IH. cbn [andb]. rewrite app_assoc. reflexivity.
Qed.

Lemma page_breaks_app (l1 l2 : list Paragraph) :
  page_breaks (l1 ++ l2) = (page_breaks l1 + page_breaks l2)%nat.
Proof. unfold page_breaks. rewrite List.filter_app. apply length_app. Qed.

Lemma page_breaks_cons (par : Paragraph) (l : list Paragraph) :
  page_breaks (par :: l)
  = ((if is_page_break par then 1 else 0) + page_breaks l)%nat.
Proof. unfold page_breaks. cbn [List.filter]. destruct (is_page_break par); reflexivity. Qed.

Lemma page_breaks_fmap {A} (f : A -> Paragraph) (l : list A) :
  (forall x, is_page_break (f x) = false) -> page_breaks (f <$> l) = 0%nat.
Proof.
  intros Hf. induction l as [|x l IH]; [reflexivity|].
  rewrite fmap_cons, page_breaks_cons, Hf. exact IH.
Qed.

Lemma plain_paragraph_no_break (text style : string) :
  is_page_break (plain_paragraph text style) = false.
Proof. unfold plain_paragraph. destruct (is_empty text); reflexivity. Qed.

Lemma aligned_paragraph_no_break (text style : string) (a : WD_ALIGN_PARAGRAPH) :
  is_page_break (aligned_paragraph text style a) = false.
Proof. unfold aligned_paragraph. destruct (is_empty text); reflexivity. Qed.

Lemma reference_paragraph_no_break (ref : string) :
  is_page_break (reference_paragraph ref) = false.
Proof. unfold reference_paragraph. destruct (is_empty ref); reflexivity. Qed.

Lemma page_breaks_sections (chapter_number : Z)
    (l : list (Z * (string * section_content))) :
  page_breaks (concat (section_blocks chapter_number <$> l)) = 0%nat.
Proof.
  induction l as [|s l IH]; [reflexivity|].
  rewrite fmap_cons. cbn [concat]. rewrite page_breaks_app, IH.
  unfold section_blocks.
  rewrite page_breaks_cons, plain_paragraph_no_break, page_breaks_fmap;
    [reflexivity|].
  intros x. apply aligned_paragraph_no_break.
Qed.

Lemma page_breaks_call_blocks (t : string) (c : builder_call) :
  page_breaks (call_blocks str_upper t c)
  = if is_figure c then 0%nat else 1%nat.
Proof.
  destruct c; cbn [call_blocks is_figure].
  - unfold cover_blocks. rewrite !page_breaks_app, page_breaks_fmap by reflexivity.
    rewrite !page_breaks_cons, !plain_paragraph_no_break. reflexivity.
  - unfold abstract_blocks.
    rewrite !page_breaks_cons, !aligned_paragraph_no_break. reflexivity.
  - unfold chapter_blocks.
    rewrite page_breaks_cons, page_breaks_app, page_breaks_sections,
      aligned_paragraph_no_break.
    reflexivity.
  - unfold references_blocks.
    rewrite page_breaks_cons, page_breaks_app, aligned_paragraph_no_break,
      page_breaks_fmap by apply reference_paragraph_no_break.
    reflexivity.
  - reflexivity.
Qed.

Lemma page_breaks_calls (t : string) (cs : list builder_call) :
  page_breaks (concat (call_blocks str_upper t <$> cs))
  = length (List.filter (fun c => negb (is_figure c)) cs).
Proof.
  induction cs as [|c cs IH]; [reflexivity|].
  rewrite fmap_cons. cbn [concat List.filter].
  rewrite page_breaks_app, page_breaks_call_blocks, IH.
  destruct (is_figure c); reflexivity.
Qed.

(** X13. Any script of cover-page, abstract, chapter, references and
    figure-placeholder calls only appends: if it returns, the title, the
    Normal style and every paragraph already in the document are as
    before, and the appended paragraphs hold exactly one page break per
    call other than a figure placeholder.  What is appended, and whether
    the script raises, does not depend on what the document already
    held; and the only exception a script raises is the [ValueError] for
    a text that is not XML-compatible. *)
Theorem scripts_only_append
    (cs : list builder_call) (self : ResearchThesisGenerator) :
  match calls str_upper cs self with
  | Ok (_, self') =>
      title self' = title self /\
      normal_style (doc self') = normal_style (doc self) /\
      exists new,
        body (doc self') = body (doc self) ++ new /\
        page_breaks new
        = length (List.filter (fun c => negb (is_figure c)) cs) /\
        forall held : list Paragraph,
          calls str_upper cs (with_body self held)
          = Ok (tt, with_body self (held ++ new))
  | Raise e =>
      e = xml_error /\
      forall held : list Paragraph,
        calls str_upper cs (with_body self held) = Raise xml_error
  end.
Proof.
  destruct self as [t [ns b]]. rewrite calls_run.
  destruct (forallb xml_compatible _) eqn:Hok.
  - cbn [title doc normal_style body].
    split; [reflexivity|]. split; [reflexivity|].
    eexists. split; [reflexivity|]. split; [apply page_breaks_calls|].
    intros held. unfold with_body. cbn [title doc normal_style].
    rewrite calls_run, Hok. reflexivity.
  - split; [reflexivity|]. intros held.
    unfold with_body. cbn [title doc normal_style].
    rewrite calls_run, Hok. reflexivity.
Qed.

End ThesisFacts.
